(** * EmailPlugin: event dispatch and delivery (packages/email-plugin/src/plugin.ts)

    A shallow embedding of the [EmailPlugin] class: its three private fields,
    the static [options], [onVendureBootstrap], [onVendureClose],
    [setupEventSubscribers] and [handleEvent].

    Conventions of the embedding.
    - An [async] method is a computation in the monad [M]: it threads the
      [World] and ends either normally ([Ok]) or with a thrown value
      ([Throw], a rejected promise).  State written before a throw stays
      written, as in JavaScript.
    - Every call that leaves the class (Logger, event bus, job queue, worker
      service, dev mailbox, email processor, the handler's own functions) is
      appended to the [trace] of the world, in call order.
    - Event objects live in a [heap] and are passed by reference ([Loc]), so
      that the assignment [event.data = ...] is an update in place.
    - Closures created by the class are defunctionalised: each arrow function
      of the source is a constructor (with its captured variables as
      arguments) and an [apply_...] function gives its body.
    - One invocation of an async method runs to its end before the next one
      starts; interleaving of several pending invocations at their [await]
      points is not modelled.  Where a caller drops the promise of an
      invocation ([unawaited]), a rejection of that promise does not reach
      the caller. *)

From Stdlib Require Import String List Bool Arith Lia.
From stdpp Require Import base option gmap strings list fin_maps sorting.
Import ListNotations.
Local Open Scope string_scope.

(** ** Values, errors and completions *)

(** The values an event field or a loaded [data] can hold ([any] in the
    source). *)
Inductive JsVal : Type :=
| JUndefined
| JNull
| JBool (b : bool)
| JNum (n : Z)
| JStr (s : string).

(** A thrown value other than [null] and [undefined], as far as the plugin
    looks at it: what reading its [message] and [stack] properties gives.
    For an [Error] these are strings; for a value without such properties
    (a thrown string, say) both reads give [undefined]. *)
Record JsError : Type := mkError {
  message : JsVal;
  stack : JsVal
}.

Inductive Nullish : Type :=
| NullValue
| UndefinedValue.

(** Anything can be thrown, and a promise can be rejected with anything:
    [null] and [undefined] have no properties to read. *)
Inductive Thrown : Type :=
| ThrownValue (e : JsError)
| ThrownNullish (n : Nullish).

Coercion ThrownValue : JsError >-> Thrown.

(** How a call ends: with a value, or by throwing. *)
Inductive Res (A : Type) : Type :=
| Ok (a : A)
| Throw (e : Thrown).
Arguments Ok {A} a.
Arguments Throw {A} e.

Definition is_ok {A} (r : Res A) : bool :=
  match r with Ok _ => true | Throw _ => false end.

(** ** Events *)

(** An event is an instance of an event class; [eventBus.ofType(cls)] selects
    by class.  Its own properties are a finite map; [data] is one of them. *)
Record EventObject : Type := mkEvent {
  ev_class : string;
  ev_fields : gmap string JsVal
}.

Definition Loc := nat.

Definition Heap := Loc -> EventObject.

Definition heap_update (h : Heap) (l : Loc) (o : EventObject) : Heap :=
  fun l' => if Nat.eqb l' l then o else h l'.

(** [obj.data = v] *)
Definition set_data (o : EventObject) (v : JsVal) : EventObject :=
  {| ev_class := ev_class o; ev_fields := <["data" := v]> (ev_fields o) |}.

(** ** Payloads, handlers, options *)

(** Modelled from the spec: [IntermediateEmailDetails] is declared in
    ./types, a module other than plugin.ts; the spec describes the
    payload as a structured description of a message (recipient, template
    selector), as in its scenario [{to: "a@b.com", template: "confirm"}]. *)
Record IntermediateEmailDetails : Type := mkDetails {
  to : string;
  template : string
}.

Definition GlobalTemplateVars := gmap string JsVal.

Definition Connection := nat.

(** The argument object of [_loadDataFn]: [{ event, connection, inject }].
    The loader reads the event it is given; [inject] is
    [t => this.moduleRef.get(t, { strict: false })] and may throw. *)
Record LoadDataArgs : Type := mkLoadArgs {
  la_event : EventObject;
  la_connection : Connection;
  la_inject : string -> Res JsVal
}.

(** What both handler classes share: [type], [event] (the event class the
    handler listens to) and [handle]. *)
Record HandlerBase : Type := mkHandler {
  type : string;
  event : string;
  handle : EventObject -> GlobalTemplateVars -> Res (option IntermediateEmailDetails)
}.

(** [EmailEventHandler | EmailEventHandlerWithAsyncData<any>]; the second
    class adds [_loadDataFn], and [instanceof] tells them apart. *)
Inductive Handler : Type :=
| EmailEventHandler (b : HandlerBase)
| EmailEventHandlerWithAsyncData (b : HandlerBase) (_loadDataFn : LoadDataArgs -> Res JsVal).

Definition base (h : Handler) : HandlerBase :=
  match h with
  | EmailEventHandler b => b
  | EmailEventHandlerWithAsyncData b _ => b
  end.

Definition instanceof_WithAsyncData (h : Handler) : bool :=
  match h with
  | EmailEventHandler _ => false
  | EmailEventHandlerWithAsyncData _ _ => true
  end.

(** [EmailPluginOptions | EmailPluginDevModeOptions].  [isDevModeOptions]
    (./common) is the discriminant of the union; [transport.type] is a string
    literal type, [mailboxPort] is optional. *)
Record EmailPluginOptions : Type := mkOptions {
  po_transport_type : string;
  po_handlers : list Handler;
  po_globalTemplateVars : GlobalTemplateVars
}.

Record EmailPluginDevModeOptions : Type := mkDevOptions {
  do_outputPath : string;
  do_mailboxPort : option Z;
  do_handlers : list Handler;
  do_globalTemplateVars : GlobalTemplateVars
}.

Inductive Options : Type :=
| ProdOptions (o : EmailPluginOptions)
| DevModeOptions (o : EmailPluginDevModeOptions).

Definition isDevModeOptions (o : Options) : bool :=
  match o with ProdOptions _ => false | DevModeOptions _ => true end.

Definition handlers (o : Options) : list Handler :=
  match o with
  | ProdOptions p => po_handlers p
  | DevModeOptions d => do_handlers d
  end.

Definition globalTemplateVars (o : Options) : GlobalTemplateVars :=
  match o with
  | ProdOptions p => po_globalTemplateVars p
  | DevModeOptions d => do_globalTemplateVars d
  end.

(** [options.mailboxPort]; the property exists on dev-mode options only. *)
Definition mailboxPort (o : Options) : option Z :=
  match o with
  | ProdOptions _ => None
  | DevModeOptions d => do_mailboxPort d
  end.

(** [options.transport.type]; dev-mode options carry no transport. *)
Definition transport_type (o : Options) : option string :=
  match o with
  | ProdOptions p => Some (po_transport_type p)
  | DevModeOptions _ => None
  end.

(** ** Closures of the class, defunctionalised *)

(** [(event) => { return this.handleEvent(handler, event); }] *)
Inductive SubscribeCallback : Type :=
| SubHandleEvent (handler : Handler).

(** [(handler, event) => this.handleEvent(handler, event)] *)
Inductive MockEventCallback : Type :=
| MockHandleEvent.

(** [(job) => { this.workerService.send(new EmailWorkerMessage(job.data)).subscribe({...}) }] *)
Inductive ProcessCallback : Type :=
| ProcSendToWorker.

Record Subscription : Type := mkSub {
  sub_event : string;
  sub_callback : SubscribeCallback
}.

(** The argument of [jobQueueService.createQueue]; the queue keeps it. *)
Record JobQueue : Type := mkQueue {
  name : string;
  concurrency : nat;
  process : ProcessCallback
}.

Record Job : Type := mkJob {
  job_id : nat;
  job_data : IntermediateEmailDetails
}.

Inductive EmailWorkerMessage : Type :=
| mkEmailWorkerMessage (data : IntermediateEmailDetails).

(** ** The world *)

(** Calls that leave the class, as they appear in the trace. *)
Inductive Action : Type :=
| LoggerDebug (msg ctx : string)
| LoggerError (msg : JsVal) (ctx : string) (stk : JsVal)
| CallLoadDataFn (h : Handler) (ev : Loc)
| CallHandle (h : Handler) (ev : Loc) (seen : EventObject)
| JobQueueAdd (q : JobQueue) (result : IntermediateEmailDetails)
| ProcessorProcess (result : IntermediateEmailDetails)
| NewEmailProcessor (o : Options)
| ProcessorInit
| CreateQueue (q : JobQueue)
| EventBusSubscribe (s : Subscription)
| NewDevMailbox
| DevMailboxServe (o : Options)
| DevMailboxHandleMockEvent (cb : MockEventCallback)
| DevMailboxDestroy
| WorkerServiceSend (m : EmailWorkerMessage)
| JobComplete (j : Job)
| JobFail (j : Job) (err : Thrown).

(** The instance fields [devMailbox], [jobQueue], [testingProcessor]; each is
    [undefined] until bootstrap assigns it. *)
Record Fields : Type := mkFields {
  devMailbox : option unit;
  jobQueue : option JobQueue;
  testingProcessor : option unit
}.

Record World : Type := mkWorld {
  fields : Fields;
  options : Options;             (* the static EmailPlugin.options *)
  heap : Heap;
  eventBus : list Subscription;  (* subscriptions held by the event bus *)
  trace : list Action
}.

(** How a terminated observable of [workerService.send] ended; [SendPending]
    is an observable that neither completes nor errors. *)
Inductive SendOutcome : Type :=
| SendCompletes
| SendErrors (err : Thrown)
| SendPending.

(** The collaborators the constructor injects, by their behaviour. *)
Record Env : Type := mkEnv {
  connection : Connection;
  moduleRef_get : string -> Res JsVal;
  jobQueue_add : JobQueue -> IntermediateEmailDetails -> Res unit;
  processor_process : IntermediateEmailDetails -> Res unit;
  processor_init : Res unit;
  createQueue_outcome : JobQueue -> Res unit;
  devMailbox_serve : Options -> Res unit;
  workerService_send : EmailWorkerMessage -> SendOutcome;
  (* the TypeError the engine raises for reading [message] of null or
     undefined *)
  typeError_reading_message : Nullish -> JsError
}.

(** ** The monad of async methods *)

Definition M (A : Type) : Type := World -> Res A * World.

Definition ret {A} (a : A) : M A := fun w => (Ok a, w).

Definition throw {A} (e : Thrown) : M A := fun w => (Throw e, w).

Definition bind {A B} (c : M A) (k : A -> M B) : M B :=
  fun w =>
    match c w with
    | (Ok a, w') => k a w'
    | (Throw e, w') => (Throw e, w')
    end.

(** [try { c } catch (e) { h e }] *)
Definition try_catch {A} (c : M A) (h : Thrown -> M A) : M A :=
  fun w =>
    match c w with
    | (Ok a, w') => (Ok a, w')
    | (Throw e, w') => h e w'
    end.

Declare Scope js_scope.
Delimit Scope js_scope with js.
Notation "'let*' x ':=' c 'in' k" := (bind c (fun x => k))
  (at level 10, x name, c at level 100, k at level 200) : js_scope.
Notation "c ';;' k" := (bind c (fun _ => k))
  (at level 100, k at level 200, right associativity) : js_scope.
Local Open Scope js_scope.

(** [await r], for a promise already settled as [r]. *)
Definition await {A} (r : Res A) : M A :=
  fun w => (r, w).

(** A call whose promise the caller neither awaits nor returns: the callee
    runs, and how its promise settles is lost to the caller. *)
Definition unawaited (c : M unit) : M unit :=
  fun w => (Ok tt, snd (c w)).

Definition emit (a : Action) : M unit :=
  fun w => (Ok tt, {| fields := fields w; options := options w; heap := heap w;
                       eventBus := eventBus w; trace := trace w ++ [a] |}).

Definition get_fields : M Fields := fun w => (Ok (fields w), w).

Definition set_fields (f : Fields) : M unit :=
  fun w => (Ok tt, {| fields := f; options := options w; heap := heap w;
                       eventBus := eventBus w; trace := trace w |}).

Definition get_options : M Options := fun w => (Ok (options w), w).

Definition read_event (l : Loc) : M EventObject := fun w => (Ok (heap w l), w).

Definition write_event (l : Loc) (o : EventObject) : M unit :=
  fun w => (Ok tt, {| fields := fields w; options := options w;
                       heap := heap_update (heap w) l o;
                       eventBus := eventBus w; trace := trace w |}).

Definition add_subscription (s : Subscription) : M unit :=
  fun w => (Ok tt, {| fields := fields w; options := options w; heap := heap w;
                       eventBus := eventBus w ++ [s]; trace := trace w |}).

Definition for_each {A} (body : A -> M unit) : list A -> M unit :=
  fix go (l : list A) : M unit :=
    match l with
    | [] => ret tt
    | x :: rest => body x;; go rest
    end.

(** The subscriptions an event of the class of [ev] is delivered to. *)
Definition subscribers_of (w : World) (ev : Loc) : list Subscription :=
  filter (fun s => sub_event s = ev_class (heap w ev)) (eventBus w).

(** ** The methods of the class *)

Definition dquote : string := String (Ascii.ascii_of_nat 34) EmptyString.

Definition loggerCtx : string := "EmailPlugin".

Section Plugin.

Variable env : Env.

(** The catch clause of [handleEvent]:
    [Logger.error(e.message, 'EmailPlugin', e.stack)].  Reading [e.message]
    of [null] or [undefined] throws, and nothing encloses the clause. *)
Definition catch_clause (e : Thrown) : M unit :=
  match e with
  | ThrownValue err => emit (LoggerError (message err) loggerCtx (stack err))
  | ThrownNullish n => throw (typeError_reading_message env n)
  end.

(** [private async handleEvent(handler, event)] *)
Definition handleEvent (handler : Handler) (ev : Loc) : M unit :=
  emit (LoggerDebug ("Handling event " ++ dquote ++ type (base handler) ++ dquote) loggerCtx);;
  try_catch
    ((match handler with
      | EmailEventHandlerWithAsyncData _ _loadDataFn =>
          let* o := read_event ev in
          emit (CallLoadDataFn handler ev);;
          let* data := await (_loadDataFn {| la_event := o;
                                              la_connection := connection env;
                                              la_inject := moduleRef_get env |}) in
          let* o' := read_event ev in
          write_event ev (set_data o' data)
      | EmailEventHandler _ => ret tt
      end);;
     let* o := read_event ev in
     let* opts := get_options in
     emit (CallHandle handler ev o);;
     let* result := await (handle (base handler) o (globalTemplateVars opts)) in
     match result with
     | None => ret tt
     | Some result =>
         let* f := get_fields in
         match jobQueue f with
         | Some q =>
             emit (JobQueueAdd q result);;
             await (jobQueue_add env q result)
         | None =>
             match testingProcessor f with
             | Some _ =>
                 emit (ProcessorProcess result);;
                 await (processor_process env result)
             | None => ret tt
             end
         end
     end)
    catch_clause.

Definition apply_subscribe_callback (cb : SubscribeCallback) (ev : Loc) : M unit :=
  match cb with
  | SubHandleEvent handler => handleEvent handler ev
  end.

Definition apply_mock_callback (cb : MockEventCallback) (handler : Handler) (ev : Loc) : M unit :=
  match cb with
  | MockHandleEvent => handleEvent handler ev
  end.

(** The [process] function given to [createQueue]. *)
Definition apply_process (cb : ProcessCallback) (job : Job) : M unit :=
  match cb with
  | ProcSendToWorker =>
      let m := mkEmailWorkerMessage (job_data job) in
      emit (WorkerServiceSend m);;
      match workerService_send env m with
      | SendCompletes => emit (JobComplete job)
      | SendErrors err => emit (JobFail job err)
      | SendPending => ret tt
      end
  end.

(** [private async setupEventSubscribers()] *)
Definition setupEventSubscribers : M unit :=
  let* opts := get_options in
  for_each (fun handler =>
              let s := {| sub_event := event (base handler);
                          sub_callback := SubHandleEvent handler |} in
              emit (EventBusSubscribe s);;
              add_subscription s)
           (handlers opts).

Definition send_email_queue : JobQueue :=
  {| name := "send-email"; concurrency := 5; process := ProcSendToWorker |}.

(** [async onVendureBootstrap()] *)
Definition onVendureBootstrap : M unit :=
  let* options := get_options in
  (if isDevModeOptions options && bool_decide (mailboxPort options <> None) then
     emit NewDevMailbox;;
     (let* f := get_fields in
      set_fields {| devMailbox := Some tt; jobQueue := jobQueue f;
                    testingProcessor := testingProcessor f |});;
     emit (DevMailboxServe options);;
     await (devMailbox_serve env options);;
     emit (DevMailboxHandleMockEvent MockHandleEvent)
   else ret tt);;
  setupEventSubscribers;;
  if negb (isDevModeOptions options) && bool_decide (transport_type options = Some "testing") then
    emit (NewEmailProcessor options);;
    (let* f := get_fields in
     set_fields {| devMailbox := devMailbox f; jobQueue := jobQueue f;
                   testingProcessor := Some tt |});;
    emit ProcessorInit;;
    await (processor_init env)
  else
    emit (CreateQueue send_email_queue);;
    await (createQueue_outcome env send_email_queue);;
    let* f := get_fields in
    set_fields {| devMailbox := devMailbox f; jobQueue := Some send_email_queue;
                  testingProcessor := testingProcessor f |}.

(** [async onVendureClose()] *)
Definition onVendureClose : M unit :=
  let* f := get_fields in
  match devMailbox f with
  | Some _ => emit DevMailboxDestroy
  | None => ret tt
  end.

(** Modelled from the spec: the event bus is a collaborator from
    @vendure/core; section 6 gives it as [subscribe(eventType) -> stream of
    events].  Publishing an event calls, in subscription order, the callback
    of every subscription whose event class is the class of the event; the
    promise a callback returns is not awaited. *)
Definition publish (ev : Loc) : M unit :=
  fun w =>
    for_each (fun s => unawaited (apply_subscribe_callback (sub_callback s) ev))
             (subscribers_of w ev) w.

End Plugin.

(** A plugin instance right after construction, with [EmailPlugin.init(o)]
    done. *)
Definition fresh_fields : Fields :=
  {| devMailbox := None; jobQueue := None; testingProcessor := None |}.

Definition fresh_world (o : Options) (h : Heap) : World :=
  {| fields := fresh_fields; options := o; heap := h; eventBus := []; trace := [] |}.

(** ** Vocabulary of the statements *)

Local Open Scope list_scope.

(** The actions a computation appends to the trace of [w]. *)
Definition emitted {A} (c : M A) (w : World) : list Action :=
  drop (length (trace w)) (trace (snd (c w))).

Definition is_LoggerDebug (a : Action) : bool :=
  match a with LoggerDebug _ _ => true | _ => false end.

Definition is_LoggerError (a : Action) : bool :=
  match a with LoggerError _ _ _ => true | _ => false end.

Definition is_CallHandle (a : Action) : bool :=
  match a with CallHandle _ _ _ => true | _ => false end.

Definition is_JobQueueAdd (a : Action) : bool :=
  match a with JobQueueAdd _ _ => true | _ => false end.

Definition is_ProcessorProcess (a : Action) : bool :=
  match a with ProcessorProcess _ => true | _ => false end.

Definition is_delivery (a : Action) : bool :=
  is_JobQueueAdd a || is_ProcessorProcess a.

Definition is_CreateQueue (a : Action) : bool :=
  match a with CreateQueue _ => true | _ => false end.

Definition debug_entry (h : Handler) : Action :=
  LoggerDebug ("Handling event " ++ dquote ++ type (base h) ++ dquote)%string loggerCtx.

Definition error_entry (e : JsError) : Action :=
  LoggerError (message e) loggerCtx (stack e).

Definition loader_args (env : Env) (w : World) (ev : Loc) : LoadDataArgs :=
  {| la_event := heap w ev; la_connection := connection env; la_inject := moduleRef_get env |}.

(** How the loading step of a dispatch ends: nothing to load ([Ok None]),
    loaded data, or the loader's failure. *)
Definition loader_outcome (env : Env) (h : Handler) (w : World) (ev : Loc) : Res (option JsVal) :=
  match h with
  | EmailEventHandler _ => Ok None
  | EmailEventHandlerWithAsyncData _ load =>
      match load (loader_args env w ev) with
      | Ok d => Ok (Some d)
      | Throw e => Throw e
      end
  end.

Definition enrich (o : EventObject) (od : option JsVal) : EventObject :=
  match od with Some d => set_data o d | None => o end.

Definition heap_after (w : World) (ev : Loc) (od : option JsVal) : Heap :=
  match od with
  | Some d => heap_update (heap w) ev (set_data (heap w ev) d)
  | None => heap w
  end.

Definition load_actions (h : Handler) (ev : Loc) : list Action :=
  match h with
  | EmailEventHandler _ => []
  | EmailEventHandlerWithAsyncData _ _ => [CallLoadDataFn h ev]
  end.

(** What the handler body answers on the event as the loading step left it. *)
Definition handle_outcome (h : Handler) (w : World) (ev : Loc) (od : option JsVal)
  : Res (option IntermediateEmailDetails) :=
  handle (base h) (enrich (heap w ev) od) (globalTemplateVars (options w)).

(** The backend call made for a payload under the fields [f], and how it
    ends. *)
Definition delivery_actions (f : Fields) (p : IntermediateEmailDetails) : list Action :=
  match jobQueue f with
  | Some q => [JobQueueAdd q p]
  | None =>
      match testingProcessor f with
      | Some _ => [ProcessorProcess p]
      | None => []
      end
  end.

Definition delivery_outcome (env : Env) (f : Fields) (p : IntermediateEmailDetails) : Res unit :=
  match jobQueue f with
  | Some q => jobQueue_add env q p
  | None =>
      match testingProcessor f with
      | Some _ => processor_process env p
      | None => Ok tt
      end
  end.

(** What the catch clause of [handleEvent] writes to the log for a thrown
    value, and how it ends. *)
Definition catch_log (e : Thrown) : list Action :=
  match e with
  | ThrownValue err => [error_entry err]
  | ThrownNullish _ => []
  end.

Definition catch_result (env : Env) (e : Thrown) : Res unit :=
  match e with
  | ThrownValue _ => Ok tt
  | ThrownNullish n => Throw (typeError_reading_message env n)
  end.

(** The first failure of an invocation, if any of its three steps fails, and
    how the invocation ends: normally, or as its catch clause ends. *)
Definition failure_of (env : Env) (h : Handler) (ev : Loc) (w : World) : option Thrown :=
  match loader_outcome env h w ev with
  | Throw e => Some e
  | Ok od =>
      match handle_outcome h w ev od with
      | Throw e => Some e
      | Ok None => None
      | Ok (Some p) =>
          match delivery_outcome env (fields w) p with
          | Throw e => Some e
          | Ok _ => None
          end
      end
  end.

Definition invocation_result (env : Env) (h : Handler) (ev : Loc) (w : World) : Res unit :=
  match failure_of env h ev w with
  | Some e => catch_result env e
  | None => Ok tt
  end.

(** A failure [e] is raised during loading, in the handler body, or in
    delivery. *)
Inductive raises (env : Env) (h : Handler) (ev : Loc) (w : World) (e : Thrown) : Prop :=
| raises_loading :
    loader_outcome env h w ev = Throw e -> raises env h ev w e
| raises_handle od :
    loader_outcome env h w ev = Ok od ->
    handle_outcome h w ev od = Throw e -> raises env h ev w e
| raises_delivery od p :
    loader_outcome env h w ev = Ok od ->
    handle_outcome h w ev od = Ok (Some p) ->
    delivery_outcome env (fields w) p = Throw e -> raises env h ev w e.

(** [w'] differs from [w] at most in the data of events and in the trace. *)
Definition stable (w w' : World) : Prop :=
  fields w' = fields w
  /\ options w' = options w
  /\ eventBus w' = eventBus w
  /\ forall l, ev_class (heap w' l) = ev_class (heap w l).

Definition subscribed_handler (s : Subscription) : Handler :=
  match sub_callback s with SubHandleEvent h => h end.

(** The debug lines expected when [ev] is published in [w]: one per
    subscription of its class, in subscription order. *)
Definition expected_entries (ev : Loc) (w : World) : list Action :=
  map (fun s => debug_entry (subscribed_handler s)) (subscribers_of w ev).

(** The subscription [setupEventSubscribers] makes for a handler. *)
Definition subscription_of (h : Handler) : Subscription :=
  {| sub_event := event (base h); sub_callback := SubHandleEvent h |}.

(** The distinct event classes the registered handlers listen to. *)
Definition distinct_event_types (hs : list Handler) : list string :=
  remove_dups (map (fun h => event (base h)) hs).

(** The two conditions [onVendureBootstrap] tests. *)
Definition mailbox_configured (o : Options) : bool :=
  isDevModeOptions o && bool_decide (mailboxPort o <> None).

Definition testing_transport (o : Options) : bool :=
  negb (isDevModeOptions o) && bool_decide (transport_type o = Some "testing").

(** Bootstrap of a plugin instance right after construction: how it ends,
    and the world it leaves. *)
Definition boot_result (env : Env) (o : Options) (h : Heap) : Res unit :=
  fst (onVendureBootstrap env (fresh_world o h)).

Definition boot (env : Env) (o : Options) (h : Heap) : World :=
  snd (onVendureBootstrap env (fresh_world o h)).

(** [EmailPlugin.init(o)] at a later time: the static options replaced. *)
Definition with_options (w : World) (o : Options) : World :=
  {| fields := fields w; options := o; heap := heap w;
     eventBus := eventBus w; trace := trace w |}.

(** A sequence of invocations of [handleEvent], from the bus or from the dev
    mailbox, each with a caller of its own. *)
Definition run_events (env : Env) (invs : list (Handler * Loc)) : M unit :=
  for_each (fun i => unawaited (handleEvent env (fst i) (snd i))) invs.

Definition is_CallLoadDataFn (a : Action) : bool :=
  match a with CallLoadDataFn _ _ => true | _ => false end.

Definition is_DevMailbox (a : Action) : bool :=
  match a with
  | NewDevMailbox | DevMailboxServe _ | DevMailboxHandleMockEvent _ | DevMailboxDestroy => true
  | _ => false
  end.

Definition mailbox_actions (o : Options) : list Action :=
  if mailbox_configured o
  then [NewDevMailbox; DevMailboxServe o; DevMailboxHandleMockEvent MockHandleEvent]
  else [].

Definition subscribe_actions (o : Options) : list Action :=
  map (fun h => EventBusSubscribe (subscription_of h)) (handlers o).

(** ** Sample inputs *)

Definition boom : JsError :=
  {| message := JStr "boom"; stack := JStr "Error: boom at handle" |}.

Definition reading_message_error : JsError :=
  {| message := JStr "Cannot read properties of undefined (reading 'message')";
     stack := JStr "TypeError: Cannot read properties of undefined (reading 'message')" |}.

Definition not_found : JsError :=
  {| message := JStr "DependencyNotFound";
     stack := JStr "Error: DependencyNotFound at inject" |}.

Definition confirm_details : IntermediateEmailDetails :=
  {| to := "a@b.com"; template := "confirm" |}.

Definition order_event : EventObject :=
  {| ev_class := "OrderStateTransitionEvent";
     ev_fields := {[ "toState" := JStr "PaymentSettled" ]} |}.

Definition sample_heap : Heap := fun _ => order_event.

Definition confirmation_base : HandlerBase :=
  {| type := "order-confirmation";
     event := "OrderStateTransitionEvent";
     handle := fun _ _ => Ok (Some confirm_details) |}.

Definition throwing_base : HandlerBase :=
  {| type := "order-confirmation";
     event := "OrderStateTransitionEvent";
     handle := fun _ _ => Throw boom |}.

Definition declining_base : HandlerBase :=
  {| type := "order-receipt";
     event := "OrderStateTransitionEvent";
     handle := fun _ _ => Ok None |}.

Definition confirmation_handler : Handler := EmailEventHandler confirmation_base.

Definition throwing_handler : Handler := EmailEventHandler throwing_base.

Definition declining_handler : Handler := EmailEventHandler declining_base.

(** A handler whose loader asks for a service that is not registered. *)
Definition loader_failing_handler : Handler :=
  EmailEventHandlerWithAsyncData confirmation_base (fun args => la_inject args "ShippingService").

(** A handler whose loader is [() => Promise.reject()]. *)
Definition rejecting_loader_handler : Handler :=
  EmailEventHandlerWithAsyncData confirmation_base
    (fun _ => Throw (ThrownNullish UndefinedValue)).

Definition loading_handler : Handler :=
  EmailEventHandlerWithAsyncData confirmation_base (fun _ => Ok (JStr "shipping-lines")).

(** Collaborators that all succeed, except that no service is registered. *)
Definition quiet_env : Env :=
  {| connection := 0;
     moduleRef_get := fun _ => Throw not_found;
     jobQueue_add := fun _ _ => Ok tt;
     processor_process := fun _ => Ok tt;
     processor_init := Ok tt;
     createQueue_outcome := fun _ => Ok tt;
     devMailbox_serve := fun _ => Ok tt;
     workerService_send := fun _ => SendCompletes;
     typeError_reading_message := fun _ => reading_message_error |}.

(** Collaborators whose delivery calls fail. *)
Definition failing_delivery_env : Env :=
  {| connection := 0;
     moduleRef_get := fun _ => Throw not_found;
     jobQueue_add := fun _ _ => Throw boom;
     processor_process := fun _ => Throw boom;
     processor_init := Ok tt;
     createQueue_outcome := fun _ => Ok tt;
     devMailbox_serve := fun _ => Ok tt;
     workerService_send := fun _ => SendErrors boom;
     typeError_reading_message := fun _ => reading_message_error |}.

Definition testing_options : Options :=
  ProdOptions {| po_transport_type := "testing";
                 po_handlers := [confirmation_handler];
                 po_globalTemplateVars := ∅ |}.

(** Two handlers registered for the same event class. *)
Definition smtp_options : Options :=
  ProdOptions {| po_transport_type := "smtp";
                 po_handlers := [confirmation_handler; declining_handler];
                 po_globalTemplateVars := ∅ |}.

Definition dev_options : Options :=
  DevModeOptions {| do_outputPath := "test-emails";
                    do_mailboxPort := Some 5003%Z;
                    do_handlers := [confirmation_handler];
                    do_globalTemplateVars := ∅ |}.

(** A plugin in inline mode, as bootstrap leaves it under
    [testing_options]. *)
Definition inline_world : World :=
  {| fields := {| devMailbox := None; jobQueue := None; testingProcessor := Some tt |};
     options := testing_options;
     heap := sample_heap;
     eventBus := [];
     trace := [] |}.

(** ** The static methods [init] and [configure] *)

(** [static init(options)]: [this.options = options]. *)
Definition init (o : Options) : M unit :=
  fun w => (Ok tt, with_options w o).

(** The argument of [createProxyHandler] (@vendure/core):
    [{ port, route, label }]. *)
Record ProxyOptions : Type := mkProxyOptions {
  px_port : Z;
  px_route : string;
  px_label : string
}.

(** A middleware handler: the proxy [createProxyHandler] builds from its
    argument, or one that was in the configuration before. *)
Inductive MiddlewareHandler : Type :=
| createProxyHandler (o : ProxyOptions)
| otherHandler (key : string).

Record Middleware : Type := mkMiddleware {
  mw_handler : MiddlewareHandler;
  mw_route : string
}.

(** [RuntimeVendureConfig], as far as [configure] looks into it: the list
    [apiOptions.middleware]; all other settings are carried along. *)
Record ApiOptions : Type := mkApiOptions {
  middleware : list Middleware;
  ao_others : gmap string JsVal
}.

Record RuntimeVendureConfig : Type := mkConfig {
  apiOptions : ApiOptions;
  cfg_others : gmap string JsVal
}.

(** [config.apiOptions.middleware.push(m)] *)
Definition push_middleware (config : RuntimeVendureConfig) (m : Middleware)
  : RuntimeVendureConfig :=
  {| apiOptions := {| middleware := middleware (apiOptions config) ++ [m];
                      ao_others := ao_others (apiOptions config) |};
     cfg_others := cfg_others config |}.

(** The middleware entry [configure] builds for a mailbox port. *)
Definition mailbox_proxy (port : Z) : Middleware :=
  {| mw_handler := createProxyHandler
                     {| px_port := port; px_route := "mailbox"; px_label := "Dev Mailbox" |};
     mw_route := "mailbox" |}.

(** [static configure(config)]; inside the guard [mailboxPort] is a
    number. *)
Definition configure (config : RuntimeVendureConfig) : M RuntimeVendureConfig :=
  let* o := get_options in
  if isDevModeOptions o && bool_decide (mailboxPort o <> None) then
    match mailboxPort o with
    | Some port =>
        let route := "mailbox" in
        ret (push_middleware config
               {| mw_handler := createProxyHandler
                                  {| px_port := port; px_route := route;
                                     px_label := "Dev Mailbox" |};
                  mw_route := route |})
    | None => ret config
    end
  else ret config.

(** [configure] applied [n] times in a row, each time to the configuration
    the previous call returned. *)
Fixpoint configure_times (n : nat) (config : RuntimeVendureConfig) : M RuntimeVendureConfig :=
  match n with
  | O => ret config
  | S n' => let* c := configure config in configure_times n' c
  end.

(** ** FacetValueSelectorComponent *)

Section FacetValueSelector.

(** [FacetValue] is a generated GraphQL type; the component reads its [name]
    and [id]. *)
Context {FacetValue : Type}.
Variable fv_name : FacetValue -> string.
Variable fv_id : FacetValue -> string.

(** An element of [result.facets.items]. *)
Record Facet : Type := mkFacet {
  facet_name : string;
  facet_values : list FacetValue
}.

(** [FacetValueSeletorItem = { name, facetName, id, value }] *)
Record FacetValueSeletorItem : Type := mkItem {
  item_name : string;
  item_facetName : string;
  item_id : string;
  item_value : FacetValue
}.

(** The object literal built for a [value] of a [facet]. *)
Definition selector_item (facet : Facet) (value : FacetValue) : FacetValueSeletorItem :=
  {| item_name := fv_name value;
     item_facetName := facet_name facet;
     item_id := fv_id value;
     item_value := value |}.

(** The callback of [mapSingle]:
    [result.facets.items.reduce((flattened, facet) =>
       flattened.concat(facet.values.map(value => ...)), [])]. *)
Definition flatten_facets (items : list Facet) : list FacetValueSeletorItem :=
  fold_left (fun flattened facet =>
               flattened ++ map (selector_item facet) (facet_values facet))
            items [].

(** [ngOnInit()]: [facetValues$] is the single result of
    [getFacets(9999999, 0)], mapped by the callback. *)
Definition ngOnInit (getFacets : Z -> Z -> list Facet) : list FacetValueSeletorItem :=
  flatten_facets (getFacets 9999999%Z 0%Z).

(** [onChange(selected)]: one emission on [selectedValuesChange], given here
    by the emissions so far. *)
Definition onChange (selected : list FacetValueSeletorItem)
    (selectedValuesChange : list (list FacetValue)) : list (list FacetValue) :=
  selectedValuesChange ++ [map item_value selected].

End FacetValueSelector.

(** ** Further vocabulary *)

(** The step of an invocation of [handleEvent] a call belongs to. *)
Definition phase (a : Action) : nat :=
  match a with
  | LoggerDebug _ _ => 0
  | CallLoadDataFn _ _ => 1
  | CallHandle _ _ _ => 2
  | JobQueueAdd _ _ | ProcessorProcess _ => 3
  | LoggerError _ _ _ => 4
  | _ => 5
  end.

(** The step of [onVendureBootstrap] a call belongs to. *)
Definition boot_phase (a : Action) : nat :=
  match a with
  | NewDevMailbox => 0
  | DevMailboxServe _ => 1
  | DevMailboxHandleMockEvent _ => 2
  | EventBusSubscribe _ => 3
  | NewEmailProcessor _ | CreateQueue _ => 4
  | ProcessorInit => 5
  | _ => 6
  end.

(** How the [serve] step of bootstrap ends; there is none without a
    configured mailbox. *)
Definition serve_outcome (env : Env) (o : Options) : Res unit :=
  if mailbox_configured o then devMailbox_serve env o else Ok tt.

(** How the backend step of bootstrap ends. *)
Definition backend_outcome (env : Env) (o : Options) : Res unit :=
  if testing_transport o then processor_init env
  else createQueue_outcome env send_email_queue.

Definition is_WorkerServiceSend (a : Action) : bool :=
  match a with WorkerServiceSend _ => true | _ => false end.

Definition is_job_end (a : Action) : bool :=
  match a with JobComplete _ | JobFail _ _ => true | _ => false end.

(** ** More sample inputs *)

(** Collaborators of a host whose queue engine is down. *)
Definition no_queue_env : Env :=
  {| connection := 0;
     moduleRef_get := fun _ => Throw not_found;
     jobQueue_add := fun _ _ => Throw boom;
     processor_process := fun _ => Ok tt;
     processor_init := Throw boom;
     createQueue_outcome := fun _ => Throw boom;
     devMailbox_serve := fun _ => Throw boom;
     workerService_send := fun _ => SendPending;
     typeError_reading_message := fun _ => reading_message_error |}.

Definition queued_world : World :=
  {| fields := {| devMailbox := None; jobQueue := Some send_email_queue;
                  testingProcessor := Some tt |};
     options := smtp_options;
     heap := sample_heap;
     eventBus := [];
     trace := [] |}.

Definition relabelling_handler : Handler :=
  EmailEventHandlerWithAsyncData confirmation_base (fun _ => Ok (JStr "billing-lines")).

Definition sample_config : RuntimeVendureConfig :=
  {| apiOptions := {| middleware := [{| mw_handler := otherHandler "cors"; mw_route := "api" |}];
                      ao_others := ∅ |};
     cfg_others := ∅ |}.

Definition sample_facets : list (@Facet string) :=
  [ {| facet_name := "brand"; facet_values := ["acme"; "zenith"] |};
    {| facet_name := "season"; facet_values := [] |};
    {| facet_name := "colour"; facet_values := ["red"] |} ].

(** * Properties *)

(** ** Running [handleEvent] *)

Lemma emitted_app {A} (c : M A) (w : World) (t : list Action) :
  trace (snd (c w)) = trace w ++ t -> emitted c w = t.
Proof.
  intros H. unfold emitted. rewrite H. apply drop_app_length.
Qed.

Lemma heap_update_same (h : Heap) (l : Loc) (o : EventObject) :
  heap_update h l o l = o.
Proof. unfold heap_update. now rewrite Nat.eqb_refl. Qed.

Lemma heap_update_other (h : Heap) (l l' : Loc) (o : EventObject) :
  l' <> l -> heap_update h l o l' = h l'.
Proof.
  intros Hne. unfold heap_update.
  destruct (Nat.eqb_spec l' l); [contradiction | reflexivity].
Qed.

Ltac case_thrown :=
  repeat match goal with
         | |- context [catch_log ?e] => is_var e; destruct e
         end.

Ltac run_js :=
  unfold try_catch, bind, emit, await, ret, read_event, write_event,
    get_options, get_fields, set_fields, add_subscription; simpl.

(** The complete behaviour of one invocation, by the outcome of each of its
    three steps. *)
Lemma handleEvent_run env h ev w :
  fst (handleEvent env h ev w) = invocation_result env h ev w
  /\ fields (snd (handleEvent env h ev w)) = fields w
  /\ options (snd (handleEvent env h ev w)) = options w
  /\ eventBus (snd (handleEvent env h ev w)) = eventBus w
  /\ match loader_outcome env h w ev with
     | Throw e =>
         heap (snd (handleEvent env h ev w)) = heap w
         /\ trace (snd (handleEvent env h ev w))
            = trace w ++ debug_entry h :: CallLoadDataFn h ev :: catch_log e
     | Ok od =>
         heap (snd (handleEvent env h ev w)) = heap_after w ev od
         /\ trace (snd (handleEvent env h ev w))
            = trace w ++ debug_entry h :: load_actions h ev
                ++ CallHandle h ev (enrich (heap w ev) od)
                :: match handle_outcome h w ev od with
                   | Throw e => catch_log e
                   | Ok None => []
                   | Ok (Some p) =>
                       delivery_actions (fields w) p
                         ++ match delivery_outcome env (fields w) p with
                            | Ok _ => []
                            | Throw e => catch_log e
                            end
                   end
     end.
Proof.
  unfold invocation_result, failure_of.
  unfold handleEvent, loader_outcome, handle_outcome, delivery_actions,
    delivery_outcome, heap_after, load_actions, loader_args, debug_entry,
    catch_clause, catch_log, catch_result, error_entry.
  destruct h as [b | b load]; run_js.
  - destruct (handle b (heap w ev) (globalTemplateVars (options w))) as [[p|]|[e|n]]; simpl.
    + destruct (jobQueue (fields w)) as [q|]; simpl.
      * destruct (jobQueue_add env q p) as [[]|[e|n]]; simpl;
          rewrite <- ?app_assoc; simpl; auto 10.
      * destruct (testingProcessor (fields w)) as [[]|]; simpl;
          [destruct (processor_process env p) as [[]|[e|n]]; simpl|];
          rewrite <- ?app_assoc; simpl; auto 10.
    + rewrite <- ?app_assoc; simpl; auto 10.
    + rewrite <- ?app_assoc; simpl; auto 10.
    + rewrite <- ?app_assoc; simpl; auto 10.
  - destruct (load _) as [d|[e|n]]; simpl.
    + rewrite !heap_update_same.
      destruct (handle b (set_data (heap w ev) d) (globalTemplateVars (options w)))
        as [[p|]|[e|n]]; simpl.
      * destruct (jobQueue (fields w)) as [q|]; simpl.
        -- destruct (jobQueue_add env q p) as [[]|[e|n]]; simpl;
             rewrite <- ?app_assoc; simpl; auto 10.
        -- destruct (testingProcessor (fields w)) as [[]|]; simpl;
             [destruct (processor_process env p) as [[]|[e|n]]; simpl|];
             rewrite <- ?app_assoc; simpl; auto 10.
      * rewrite <- ?app_assoc; simpl; auto 10.
      * rewrite <- ?app_assoc; simpl; auto 10.
      * rewrite <- ?app_assoc; simpl; auto 10.
    + rewrite <- ?app_assoc; simpl; auto 10.
    + rewrite <- ?app_assoc; simpl; auto 10.
Qed.

Lemma handleEvent_result env h ev w :
  fst (handleEvent env h ev w) = invocation_result env h ev w.
Proof. apply handleEvent_run. Qed.

(** A dropped promise never fails its caller, and the callee has run. *)
Lemma unawaited_run (c : M unit) w :
  fst (unawaited c w) = Ok tt /\ snd (unawaited c w) = snd (c w).
Proof. split; reflexivity. Qed.

Lemma handleEvent_fields env h ev w :
  fields (snd (handleEvent env h ev w)) = fields w.
Proof. apply handleEvent_run. Qed.

Lemma handleEvent_options env h ev w :
  options (snd (handleEvent env h ev w)) = options w.
Proof. apply handleEvent_run. Qed.

Lemma handleEvent_eventBus env h ev w :
  eventBus (snd (handleEvent env h ev w)) = eventBus w.
Proof. apply handleEvent_run. Qed.

Lemma handleEvent_heap env h ev w :
  heap (snd (handleEvent env h ev w))
  = match loader_outcome env h w ev with
    | Ok od => heap_after w ev od
    | Throw _ => heap w
    end.
Proof.
  destruct (handleEvent_run env h ev w) as (_ & _ & _ & _ & H).
  destruct (loader_outcome env h w ev); apply H.
Qed.

Lemma handleEvent_class env h ev w l :
  ev_class (heap (snd (handleEvent env h ev w)) l) = ev_class (heap w l).
Proof.
  rewrite handleEvent_heap.
  destruct (loader_outcome env h w ev) as [[d|]|e]; simpl; try reflexivity.
  unfold heap_update. destruct (Nat.eqb_spec l ev) as [->|]; reflexivity.
Qed.

(** The entries of one invocation: the debug line comes first and is the
    only one. *)
Lemma handleEvent_trace env h ev w :
  exists t, trace (snd (handleEvent env h ev w)) = trace w ++ debug_entry h :: t
            /\ List.filter is_LoggerDebug t = [].
Proof.
  destruct (handleEvent_run env h ev w) as (_ & _ & _ & _ & H).
  destruct (loader_outcome env h w ev) as [od|e].
  - destruct H as [_ ->]. eexists; split; [reflexivity|].
    rewrite List.filter_app. simpl.
    destruct h; simpl;
      destruct (handle_outcome _ w ev od) as [[p|]|e]; simpl;
      try (case_thrown; reflexivity);
      rewrite List.filter_app; unfold delivery_actions;
      destruct (jobQueue (fields w)); simpl;
      try destruct (testingProcessor (fields w)); simpl;
      destruct (delivery_outcome env (fields w) p); case_thrown; reflexivity.
  - destruct H as [_ ->]. eexists; split; [reflexivity|]. case_thrown; reflexivity.
Qed.

(** ** Loops over invocations *)

Lemma stable_refl w : stable w w.
Proof. repeat split. Qed.

Lemma stable_trans w1 w2 w3 : stable w1 w2 -> stable w2 w3 -> stable w1 w3.
Proof.
  intros (F1 & O1 & B1 & C1) (F2 & O2 & B2 & C2).
  split; [congruence|]. split; [congruence|]. split; [congruence|].
  intros l. now rewrite C2, C1.
Qed.

Lemma handleEvent_stable env h ev w : stable w (snd (handleEvent env h ev w)).
Proof.
  repeat split.
  - apply handleEvent_fields.
  - apply handleEvent_options.
  - apply handleEvent_eventBus.
  - intros l. apply handleEvent_class.
Qed.

Lemma subscribers_of_stable w w' ev :
  stable w w' -> subscribers_of w' ev = subscribers_of w ev.
Proof.
  intros (_ & _ & B & C). unfold subscribers_of. now rewrite B, C.
Qed.

Section ForEach.

Context {A : Type}.
Variable body : A -> M unit.
Variable keep : Action -> bool.
Variable inv : World -> Prop.
Variable entries : A -> World -> list Action.

Hypothesis body_ok : forall a w, fst (body a w) = Ok tt.
Hypothesis body_stable : forall a w, stable w (snd (body a w)).
Hypothesis body_inv : forall a w, inv w -> inv (snd (body a w)).
Hypothesis body_trace : forall a w, inv w ->
  exists t, trace (snd (body a w)) = trace w ++ t
            /\ List.filter keep t = entries a w.
Hypothesis entries_stable : forall a w w', stable w w' -> entries a w' = entries a w.

(** A loop whose body never throws runs every iteration, whatever the
    earlier iterations did; [keep] selects the entries of interest. *)
Lemma for_each_post (l : list A) (w : World) :
  inv w ->
  fst (for_each body l w) = Ok tt
  /\ stable w (snd (for_each body l w))
  /\ inv (snd (for_each body l w))
  /\ exists t, trace (snd (for_each body l w)) = trace w ++ t
               /\ List.filter keep t = flat_map (fun a => entries a w) l.
Proof.
  revert w. induction l as [|a l IH]; intros w Hinv; simpl.
  - split; [reflexivity|]. split; [apply stable_refl|]. split; [exact Hinv|].
    exists []. now rewrite app_nil_r.
  - unfold bind.
    pose proof (body_ok a w) as Hok.
    pose proof (body_stable a w) as Hst.
    pose proof (body_inv a w Hinv) as Hinv1.
    destruct (body_trace a w Hinv) as (t1 & Ht1 & Hf1).
    destruct (body a w) as [r w1]; simpl in *. subst r.
    destruct (IH w1 Hinv1) as (Hok2 & Hst2 & Hinv2 & t2 & Ht2 & Hf2).
    split; [exact Hok2|]. split; [eapply stable_trans; eauto|].
    split; [exact Hinv2|].
    exists (t1 ++ t2). split.
    + rewrite Ht2, Ht1. now rewrite app_assoc.
    + rewrite List.filter_app, Hf1, Hf2. f_equal.
      apply flat_map_ext. intros b. now apply entries_stable.
Qed.

End ForEach.

Lemma publish_post env ev w :
  fst (publish env ev w) = Ok tt
  /\ stable w (snd (publish env ev w))
  /\ exists t, trace (snd (publish env ev w)) = trace w ++ t
               /\ List.filter is_LoggerDebug t = expected_entries ev w.
Proof.
  unfold publish, expected_entries.
  destruct (for_each_post
              (fun s => unawaited (apply_subscribe_callback env (sub_callback s) ev))
              is_LoggerDebug (fun _ => True)
              (fun s _ => [debug_entry (subscribed_handler s)]))
    with (l := subscribers_of w ev) (w := w) as (Hok & Hst & _ & t & Ht & Hf).
  - reflexivity.
  - intros [e [h]] w0. apply handleEvent_stable.
  - trivial.
  - intros [e [h]] w0 _. simpl.
    destruct (handleEvent_trace env h ev w0) as (t & Ht & Hf).
    exists (debug_entry h :: t). split; [exact Ht|]. simpl. now rewrite Hf.
  - reflexivity.
  - exact I.
  - split; [exact Hok|]. split; [exact Hst|].
    exists t. split; [exact Ht|]. rewrite Hf.
    generalize (subscribers_of w ev). intros l.
    induction l as [|s l IH]; simpl; [reflexivity | now rewrite IH].
Qed.

Lemma expected_entries_stable ev w w' :
  stable w w' -> expected_entries ev w' = expected_entries ev w.
Proof.
  intros Hst. unfold expected_entries. now rewrite (subscribers_of_stable w w').
Qed.

Lemma publish_all_post env evs w :
  fst (for_each (publish env) evs w) = Ok tt
  /\ stable w (snd (for_each (publish env) evs w))
  /\ exists t, trace (snd (for_each (publish env) evs w)) = trace w ++ t
               /\ List.filter is_LoggerDebug t = flat_map (fun ev => expected_entries ev w) evs.
Proof.
  destruct (for_each_post (publish env) is_LoggerDebug (fun _ => True) expected_entries)
    with (l := evs) (w := w) as (Hok & Hst & _ & Ht).
  - intros ev w0. apply publish_post.
  - intros ev w0. apply publish_post.
  - trivial.
  - intros ev w0 _. apply publish_post.
  - intros ev w0 w1. apply expected_entries_stable.
  - exact I.
  - auto.
Qed.

(** ** Failures and the catch clause of [handleEvent] *)

Lemma raises_logged env h ev w (e : JsError) :
  raises env h ev w e ->
  fst (handleEvent env h ev w) = Ok tt
  /\ exists t, emitted (handleEvent env h ev) w = t ++ [error_entry e]
               /\ List.filter is_LoggerError t = [].
Proof.
  intros Hr.
  destruct (handleEvent_run env h ev w) as (Hres & _ & _ & _ & H).
  unfold invocation_result, failure_of in Hres.
  destruct Hr as [Hl | od Hl Hh | od p Hl Hh Hd]; rewrite Hl in H, Hres;
    destruct H as [_ H]; rewrite (emitted_app _ _ _ H); clear H.
  - split; [exact Hres|].
    exists [debug_entry h; CallLoadDataFn h ev]. split; reflexivity.
  - rewrite Hh in *. split; [exact Hres|].
    exists (debug_entry h :: load_actions h ev ++ [CallHandle h ev (enrich (heap w ev) od)]).
    split.
    + simpl. now rewrite <- app_assoc.
    + destruct h; reflexivity.
  - rewrite Hh, Hd in *. split; [exact Hres|].
    exists (debug_entry h :: load_actions h ev
              ++ CallHandle h ev (enrich (heap w ev) od) :: delivery_actions (fields w) p).
    split.
    + simpl. rewrite <- app_assoc. simpl. reflexivity.
    + unfold delivery_actions.
      destruct h; destruct (jobQueue (fields w));
        try destruct (testingProcessor (fields w)); reflexivity.
Qed.

Lemma raises_nullish_escapes env h ev w n :
  raises env h ev w (ThrownNullish n) ->
  fst (handleEvent env h ev w) = Throw (typeError_reading_message env n)
  /\ List.filter is_LoggerError (emitted (handleEvent env h ev) w) = [].
Proof.
  intros Hr.
  destruct (handleEvent_run env h ev w) as (Hres & _ & _ & _ & H).
  unfold invocation_result, failure_of in Hres.
  destruct Hr as [Hl | od Hl Hh | od p Hl Hh Hd]; rewrite Hl in H, Hres;
    destruct H as [_ H]; rewrite (emitted_app _ _ _ H); clear H.
  - split; [exact Hres | reflexivity].
  - rewrite Hh in *. split; [exact Hres|].
    simpl. rewrite List.filter_app. destruct h; reflexivity.
  - rewrite Hh, Hd in *. split; [exact Hres|].
    simpl. rewrite !List.filter_app. unfold delivery_actions.
    destruct h; destruct (jobQueue (fields w));
      try destruct (testingProcessor (fields w)); reflexivity.
Qed.

(** C1 does not hold of the code for a failure whose value is [null] or
    [undefined]: the catch clause is entered and fails itself on reading
    [e.message], so [handleEvent] rejects with that TypeError and nothing is
    logged. *)
Theorem nullish_failure_escapes_handleEvent env h ev w n :
  raises env h ev w (ThrownNullish n) ->
  fst (handleEvent env h ev w) = Throw (typeError_reading_message env n)
  /\ fst (handleEvent env h ev w) <> Ok tt
  /\ List.filter is_LoggerError (emitted (handleEvent env h ev) w) = [].
Proof.
  intros Hr. destruct (raises_nullish_escapes env h ev w n Hr) as [Hres Hlog].
  split; [exact Hres|]. split; [|exact Hlog].
  rewrite Hres. discriminate.
Qed.

(** A loader that is [() => Promise.reject()], in inline mode. *)
Lemma nullish_failure_escapes_handleEvent_witness :
  fst (handleEvent quiet_env rejecting_loader_handler 0 inline_world)
    = Throw reading_message_error
  /\ fst (handleEvent quiet_env rejecting_loader_handler 0 inline_world) <> Ok tt
  /\ List.filter is_LoggerError
       (emitted (handleEvent quiet_env rejecting_loader_handler 0) inline_world) = [].
Proof.
  apply (nullish_failure_escapes_handleEvent quiet_env rejecting_loader_handler 0
           inline_world UndefinedValue).
  apply raises_loading. reflexivity.
Defined.

(** ** Inline delivery *)

(** C2 as stated does not hold: in inline mode, with a handler that
    returns a payload and a [process] that fails, the invocation ends
    normally and the caller awaiting it sees no error. *)
Lemma inline_process_failure_not_raised :
  jobQueue (fields inline_world) = None
  /\ testingProcessor (fields inline_world) = Some tt
  /\ handle_outcome confirmation_handler inline_world 0 None = Ok (Some confirm_details)
  /\ processor_process failing_delivery_env confirm_details = Throw boom
  /\ fst (handleEvent failing_delivery_env confirmation_handler 0 inline_world) = Ok tt
  /\ fst (handleEvent failing_delivery_env confirmation_handler 0 inline_world) <> Throw boom.
Proof.
  repeat split; try reflexivity. discriminate.
Qed.

(** C2, amended. In inline mode, when the handler returns a payload and
    [process] fails on it with a value other than [null] or [undefined], the
    failure is caught in [handleEvent]: the invocation ends normally,
    [process] was called once with the payload, and the failure is logged as
    the last entry. *)
Theorem inline_process_failure_is_logged env h ev w od p (e : JsError) :
  jobQueue (fields w) = None ->
  testingProcessor (fields w) = Some tt ->
  loader_outcome env h w ev = Ok od ->
  handle_outcome h w ev od = Ok (Some p) ->
  processor_process env p = Throw e ->
  fst (handleEvent env h ev w) = Ok tt
  /\ emitted (handleEvent env h ev) w
     = debug_entry h :: load_actions h ev
         ++ [CallHandle h ev (enrich (heap w ev) od); ProcessorProcess p; error_entry e].
Proof.
  intros Hq Hp Hl Hh Hd.
  assert (Hdo : delivery_outcome env (fields w) p = Throw e).
  { unfold delivery_outcome. now rewrite Hq, Hp. }
  destruct (handleEvent_run env h ev w) as (Hok & _ & _ & _ & H).
  split.
  - rewrite Hok. unfold invocation_result, failure_of. now rewrite Hl, Hh, Hdo.
  - rewrite Hl in H. destruct H as [_ H]. apply emitted_app. rewrite H, Hh, Hdo.
    unfold delivery_actions. rewrite Hq, Hp. reflexivity.
Qed.

Lemma inline_process_failure_is_logged_witness :
  fst (handleEvent failing_delivery_env confirmation_handler 0 inline_world) = Ok tt
  /\ emitted (handleEvent failing_delivery_env confirmation_handler 0) inline_world
     = debug_entry confirmation_handler :: load_actions confirmation_handler 0
         ++ [CallHandle confirmation_handler 0 (enrich (heap inline_world 0) None);
             ProcessorProcess confirm_details; error_entry boom].
Proof.
  apply (inline_process_failure_is_logged failing_delivery_env confirmation_handler 0
           inline_world None confirm_details boom); reflexivity.
Defined.

(** ** Bootstrap *)

Lemma for_each_subscribe hs w :
  for_each (fun handler =>
              let s := {| sub_event := event (base handler);
                          sub_callback := SubHandleEvent handler |} in
              emit (EventBusSubscribe s);; add_subscription s) hs w
  = (Ok tt, {| fields := fields w; options := options w; heap := heap w;
               eventBus := eventBus w ++ map subscription_of hs;
               trace := trace w ++ map (fun h => EventBusSubscribe (subscription_of h)) hs |}).
Proof.
  revert w. induction hs as [|h hs IH]; intros w; simpl.
  - unfold ret. rewrite !app_nil_r. now destruct w.
  - run_js. rewrite IH. simpl. now rewrite <- !app_assoc.
Qed.

Lemma setupEventSubscribers_run w :
  setupEventSubscribers w
  = (Ok tt, {| fields := fields w; options := options w; heap := heap w;
               eventBus := eventBus w ++ map subscription_of (handlers (options w));
               trace := trace w ++ subscribe_actions (options w) |}).
Proof.
  unfold setupEventSubscribers, bind, get_options. apply for_each_subscribe.
Qed.

(** What [onVendureBootstrap] does, by the two conditions it tests and the
    outcome of the collaborator calls it awaits. *)
Lemma bootstrap_run env w r w' :
  onVendureBootstrap env w = (r, w') ->
  options w' = options w
  /\ heap w' = heap w
  /\ devMailbox (fields w')
     = (if mailbox_configured (options w) then Some tt else devMailbox (fields w))
  /\ match (if mailbox_configured (options w)
            then devMailbox_serve env (options w) else Ok tt) with
     | Throw e =>
         r = Throw e
         /\ eventBus w' = eventBus w
         /\ jobQueue (fields w') = jobQueue (fields w)
         /\ testingProcessor (fields w') = testingProcessor (fields w)
         /\ trace w' = trace w ++ [NewDevMailbox; DevMailboxServe (options w)]
     | Ok _ =>
         eventBus w' = eventBus w ++ map subscription_of (handlers (options w))
         /\ if testing_transport (options w)
            then r = processor_init env
                 /\ jobQueue (fields w') = jobQueue (fields w)
                 /\ testingProcessor (fields w') = Some tt
                 /\ trace w' = trace w ++ mailbox_actions (options w)
                                ++ subscribe_actions (options w)
                                ++ [NewEmailProcessor (options w); ProcessorInit]
            else r = createQueue_outcome env send_email_queue
                 /\ testingProcessor (fields w') = testingProcessor (fields w)
                 /\ jobQueue (fields w')
                    = (if is_ok (createQueue_outcome env send_email_queue)
                       then Some send_email_queue else jobQueue (fields w))
                 /\ trace w' = trace w ++ mailbox_actions (options w)
                                ++ subscribe_actions (options w)
                                ++ [CreateQueue send_email_queue]
     end.
Proof.
  unfold onVendureBootstrap, mailbox_actions.
  change (isDevModeOptions (options w) && bool_decide (mailboxPort (options w) <> None))
    with (mailbox_configured (options w)).
  unfold bind at 1. unfold get_options at 1. cbv beta iota.
  change (isDevModeOptions (options w) && bool_decide (mailboxPort (options w) <> None))
    with (mailbox_configured (options w)).
  change (negb (isDevModeOptions (options w))
          && bool_decide (transport_type (options w) = Some "testing"))
    with (testing_transport (options w)).
  destruct (mailbox_configured (options w)).
  - run_js. destruct (devMailbox_serve env (options w)) as [[]|e]; simpl.
    + rewrite setupEventSubscribers_run. simpl.
      destruct (testing_transport (options w)); simpl.
      * intros [= <- <-]. simpl. rewrite <- !app_assoc. simpl. repeat split; reflexivity.
      * destruct (createQueue_outcome env send_email_queue) as [[]|e]; simpl;
          intros [= <- <-]; simpl; rewrite <- !app_assoc; simpl; repeat split; reflexivity.
    + intros [= <- <-]. simpl. rewrite <- !app_assoc. simpl. repeat split; reflexivity.
  - run_js. rewrite setupEventSubscribers_run. simpl.
    destruct (testing_transport (options w)); simpl.
    + intros [= <- <-]. simpl. rewrite <- ?app_assoc. simpl. repeat split; reflexivity.
    + destruct (createQueue_outcome env send_email_queue) as [[]|e]; simpl;
        intros [= <- <-]; simpl; rewrite <- ?app_assoc; simpl; repeat split; reflexivity.
Qed.

(** ** Subscriptions *)

(** C3 as stated does not hold: with two handlers registered for one
    event class, starting the plugin makes two subscriptions, one more than
    there are distinct event classes. *)
Lemma two_handlers_one_class_two_subscriptions :
  distinct_event_types (handlers smtp_options) = ["OrderStateTransitionEvent"]
  /\ boot_result quiet_env smtp_options sample_heap = Ok tt
  /\ length (eventBus (boot quiet_env smtp_options sample_heap)) = 2
  /\ length (eventBus (snd (setupEventSubscribers (fresh_world smtp_options sample_heap))))
     <> length (distinct_event_types (handlers smtp_options)).
Proof.
  repeat split; try (vm_compute; reflexivity). vm_compute. discriminate.
Qed.

(** C3, amended. [setupEventSubscribers] makes exactly one subscription per
    registered handler, in registration order, each for the handler's event
    class and with a callback that hands the event to that handler; a
    bootstrap that completes leaves the event bus with these subscriptions
    and no others, as many as there are handlers. *)
Theorem one_subscription_per_handler w :
  fst (setupEventSubscribers w) = Ok tt
  /\ eventBus (snd (setupEventSubscribers w))
     = eventBus w ++ map subscription_of (handlers (options w))
  /\ emitted setupEventSubscribers w
     = map (fun h => EventBusSubscribe (subscription_of h)) (handlers (options w))
  /\ (forall env o h,
        boot_result env o h = Ok tt ->
        eventBus (boot env o h) = map subscription_of (handlers o)
        /\ length (eventBus (boot env o h)) = length (handlers o)).
Proof.
  rewrite setupEventSubscribers_run. simpl.
  split; [reflexivity|]. split; [reflexivity|]. split.
  - apply emitted_app. rewrite setupEventSubscribers_run. reflexivity.
  - intros env o h Hok. unfold boot_result, boot in *.
    destruct (onVendureBootstrap env (fresh_world o h)) as [r w1] eqn:E.
    apply bootstrap_run in E. simpl in *. subst r.
    destruct E as (_ & _ & _ & E).
    destruct (if mailbox_configured o then devMailbox_serve env o else Ok tt) as [[]|e].
    + destruct E as [-> _]. split; [reflexivity|]. now rewrite length_map.
    + destruct E as [E _]. discriminate.
Qed.

Lemma one_subscription_per_handler_witness :
  eventBus (boot quiet_env smtp_options sample_heap)
    = map subscription_of (handlers smtp_options)
  /\ length (eventBus (boot quiet_env smtp_options sample_heap))
     = length (handlers smtp_options).
Proof.
  apply (one_subscription_per_handler (fresh_world smtp_options sample_heap)).
  reflexivity.
Defined.

(** ** Loading before handling *)

(** C4. For a handler with an async data loader, the loader is called and
    awaited before the handler body.  When the loader fails, whatever the
    value it fails with, the catch clause is what follows the loader call:
    the handler body is not called, nothing is delivered, the event is left
    as it was, and the invocation ends, and logs, as the catch clause does
    for that value, the same as for a failure of a handler body.  When the
    loader succeeds, the loader call is followed by the one call of the
    handler body, which sees the event with the loaded data. *)
Theorem loader_is_awaited_before_handle env b load ev w :
  (forall e,
      load (loader_args env w ev) = Throw e ->
      fst (handleEvent env (EmailEventHandlerWithAsyncData b load) ev w)
        = catch_result env e
      /\ emitted (handleEvent env (EmailEventHandlerWithAsyncData b load) ev) w
         = debug_entry (EmailEventHandlerWithAsyncData b load)
             :: CallLoadDataFn (EmailEventHandlerWithAsyncData b load) ev
             :: catch_log e
      /\ List.filter is_CallHandle
           (emitted (handleEvent env (EmailEventHandlerWithAsyncData b load) ev) w) = []
      /\ List.filter is_delivery
           (emitted (handleEvent env (EmailEventHandlerWithAsyncData b load) ev) w) = []
      /\ heap (snd (handleEvent env (EmailEventHandlerWithAsyncData b load) ev w)) = heap w
      /\ (forall b',
            handle_outcome (EmailEventHandler b') w ev None = Throw e ->
            fst (handleEvent env (EmailEventHandler b') ev w) = catch_result env e
            /\ emitted (handleEvent env (EmailEventHandler b') ev) w
               = debug_entry (EmailEventHandler b')
                   :: CallHandle (EmailEventHandler b') ev (heap w ev)
                   :: catch_log e))
  /\ (forall d,
        load (loader_args env w ev) = Ok d ->
        exists rest,
          emitted (handleEvent env (EmailEventHandlerWithAsyncData b load) ev) w
          = debug_entry (EmailEventHandlerWithAsyncData b load)
              :: CallLoadDataFn (EmailEventHandlerWithAsyncData b load) ev
              :: CallHandle (EmailEventHandlerWithAsyncData b load) ev
                   (set_data (heap w ev) d)
              :: rest
          /\ List.filter is_CallLoadDataFn rest = []
          /\ List.filter is_CallHandle rest = []).
Proof.
  destruct (handleEvent_run env (EmailEventHandlerWithAsyncData b load) ev w)
    as (Hres & _ & _ & _ & H).
  unfold invocation_result, failure_of in Hres.
  split.
  - intros e Hl. simpl in H, Hres. rewrite Hl in H, Hres. destruct H as [Hh Ht].
    rewrite (emitted_app _ _ _ Ht).
    split; [exact Hres|]. split; [reflexivity|].
    split; [destruct e; reflexivity|]. split; [destruct e; reflexivity|].
    split; [exact Hh|].
    intros b' Hh'.
    destruct (handleEvent_run env (EmailEventHandler b') ev w) as (Hres' & _ & _ & _ & H').
    unfold invocation_result, failure_of in Hres'.
    simpl in H', Hres'. rewrite Hh' in H', Hres'. destruct H' as [_ Ht'].
    split; [exact Hres'|]. rewrite (emitted_app _ _ _ Ht'). reflexivity.
  - intros d Hl. simpl in H. rewrite Hl in H. destruct H as [_ Ht].
    rewrite (emitted_app _ _ _ Ht). simpl.
    eexists. split; [reflexivity|].
    destruct (handle_outcome _ w ev (Some d)) as [[p|]|e]; simpl;
      try (case_thrown; auto; fail).
    rewrite !List.filter_app. unfold delivery_actions.
    destruct (jobQueue (fields w)); simpl;
      try destruct (testingProcessor (fields w)); simpl;
      destruct (delivery_outcome env (fields w) p); simpl; case_thrown; auto.
Qed.

Lemma loader_is_awaited_before_handle_witness :
  (fst (handleEvent quiet_env loader_failing_handler 0 inline_world) = Ok tt
   /\ emitted (handleEvent quiet_env loader_failing_handler 0) inline_world
      = [debug_entry loader_failing_handler;
         CallLoadDataFn loader_failing_handler 0;
         error_entry not_found]
   /\ List.filter is_CallHandle
        (emitted (handleEvent quiet_env loader_failing_handler 0) inline_world) = []
   /\ List.filter is_delivery
        (emitted (handleEvent quiet_env loader_failing_handler 0) inline_world) = []
   /\ heap (snd (handleEvent quiet_env loader_failing_handler 0 inline_world))
      = heap inline_world)
  /\ (fst (handleEvent quiet_env rejecting_loader_handler 0 inline_world)
        = Throw reading_message_error
      /\ List.filter is_CallHandle
           (emitted (handleEvent quiet_env rejecting_loader_handler 0) inline_world) = [])
  /\ exists rest,
       emitted (handleEvent quiet_env loading_handler 0) inline_world
       = debug_entry loading_handler
           :: CallLoadDataFn loading_handler 0
           :: CallHandle loading_handler 0
                (set_data (heap inline_world 0) (JStr "shipping-lines"))
           :: rest
       /\ List.filter is_CallLoadDataFn rest = []
       /\ List.filter is_CallHandle rest = [].
Proof.
  pose proof (proj1 (loader_is_awaited_before_handle quiet_env confirmation_base
                       (fun args => la_inject args "ShippingService") 0 inline_world)
                    not_found eq_refl) as (H1 & H2 & H3 & H4 & H5 & _).
  pose proof (proj1 (loader_is_awaited_before_handle quiet_env confirmation_base
                       (fun _ => Throw (ThrownNullish UndefinedValue)) 0 inline_world)
                    (ThrownNullish UndefinedValue) eq_refl) as (G1 & _ & G3 & _).
  split; [repeat split; assumption|]. split; [split; assumption|].
  apply (loader_is_awaited_before_handle quiet_env confirmation_base
           (fun _ => Ok (JStr "shipping-lines")) 0 inline_world).
  reflexivity.
Defined.

(** ** One invocation of the handler body *)

(** C5 as stated does not hold: a handler of the async-data variant
    whose loader fails is dispatched without any call of its body, and the
    event's [data] stays unset. *)
Lemma failing_loader_means_no_handle_call :
  instanceof_WithAsyncData loader_failing_handler = true
  /\ event (base loader_failing_handler) = ev_class (heap inline_world 0)
  /\ List.filter is_CallHandle
       (emitted (handleEvent quiet_env loader_failing_handler 0) inline_world) = []
  /\ length (List.filter is_CallHandle
               (emitted (handleEvent quiet_env loader_failing_handler 0) inline_world)) <> 1
  /\ ev_fields (heap (snd (handleEvent quiet_env loader_failing_handler 0 inline_world)) 0)
       !! "data" = None.
Proof.
  repeat split; try (vm_compute; reflexivity). vm_compute. discriminate.
Qed.

(** C5, amended. An invocation calls the handler body at most once, and not
    at all when the loader fails.  When the loading step does not fail (there
    is no loader, or the loader returns), the invocation calls the handler
    body exactly once, on the event as the loading step left it: with [data]
    set to the loaded value when the handler is of the async-data variant,
    and untouched when it is not, in which case the whole heap is as before.
    A loaded value exists exactly for the async-data variant.  When the body
    returns no payload, the invocation is the debug line, the loader call if
    any and the body call: nothing is delivered and no error is logged,
    whatever the fields. *)
Theorem handle_invoked_once_after_loading env h ev w :
  length (List.filter is_CallHandle (emitted (handleEvent env h ev) w)) <= 1
  /\ (forall e,
        loader_outcome env h w ev = Throw e ->
        List.filter is_CallHandle (emitted (handleEvent env h ev) w) = [])
  /\ (forall od,
        loader_outcome env h w ev = Ok od ->
        List.filter is_CallHandle (emitted (handleEvent env h ev) w)
          = [CallHandle h ev (enrich (heap w ev) od)]
        /\ (is_Some od <-> instanceof_WithAsyncData h = true)
        /\ heap (snd (handleEvent env h ev w)) ev = enrich (heap w ev) od
        /\ (forall d, od = Some d ->
              ev_fields (heap (snd (handleEvent env h ev w)) ev) !! "data" = Some d)
        /\ (instanceof_WithAsyncData h = false ->
              heap (snd (handleEvent env h ev w)) = heap w)
        /\ (handle_outcome h w ev od = Ok None ->
              fst (handleEvent env h ev w) = Ok tt
              /\ emitted (handleEvent env h ev) w
                 = debug_entry h :: load_actions h ev
                     ++ [CallHandle h ev (enrich (heap w ev) od)]
              /\ List.filter is_delivery (emitted (handleEvent env h ev) w) = []
              /\ List.filter is_LoggerError (emitted (handleEvent env h ev) w) = [])).
Proof.
  assert (Hfail : forall e, loader_outcome env h w ev = Throw e ->
                    List.filter is_CallHandle (emitted (handleEvent env h ev) w) = []).
  { intros e Hl.
    destruct (handleEvent_run env h ev w) as (_ & _ & _ & _ & H).
    rewrite Hl in H. destruct H as [_ Ht]. rewrite (emitted_app _ _ _ Ht).
    destruct e; reflexivity. }
  assert (Hone : forall od, loader_outcome env h w ev = Ok od ->
                   List.filter is_CallHandle (emitted (handleEvent env h ev) w)
                   = [CallHandle h ev (enrich (heap w ev) od)]).
  { intros od Hl.
    destruct (handleEvent_run env h ev w) as (_ & _ & _ & _ & H).
    rewrite Hl in H. destruct H as [_ Ht]. rewrite (emitted_app _ _ _ Ht).
    simpl. rewrite List.filter_app. simpl.
    replace (List.filter is_CallHandle (load_actions h ev)) with (@nil Action)
      by (destruct h; reflexivity).
    simpl. f_equal.
    destruct (handle_outcome h w ev od) as [[p|]|e]; simpl;
      try (case_thrown; reflexivity).
    rewrite List.filter_app. unfold delivery_actions.
    destruct (jobQueue (fields w)); simpl;
      try destruct (testingProcessor (fields w)); simpl;
      destruct (delivery_outcome env (fields w) p); case_thrown; reflexivity. }
  split; [|split; [exact Hfail|]].
  { destruct (loader_outcome env h w ev) as [od|e] eqn:Hl.
    - rewrite (Hone od eq_refl). simpl. lia.
    - rewrite (Hfail e eq_refl). simpl. lia. }
  intros od Hl.
  split; [exact (Hone od Hl)|].
  destruct (handleEvent_run env h ev w) as (Hok & _ & _ & _ & H).
  unfold invocation_result, failure_of in Hok.
  rewrite Hl in H, Hok. destruct H as [Hh Ht].
  rewrite (emitted_app _ _ _ Ht), Hh. clear Ht Hh.
  split; [|split; [|split; [|split]]].
  - unfold loader_outcome in Hl. destruct h as [b|b load]; simpl.
    + injection Hl as <-. split; [intros [x Hx]; discriminate | discriminate].
    + destruct (load _); [|discriminate]. injection Hl as <-.
      split; [reflexivity | intros _; eexists; reflexivity].
  - destruct od as [d|]; simpl; [apply heap_update_same | reflexivity].
  - intros d ->. simpl. rewrite heap_update_same. simpl. apply lookup_insert_eq.
  - intros Hs. unfold loader_outcome in Hl. destruct h as [b|b load]; simpl in *.
    + injection Hl as <-. reflexivity.
    + discriminate.
  - intros Hn. rewrite Hn in *. split; [exact Hok|]. split; [reflexivity|].
    simpl. rewrite !List.filter_app. simpl.
    split; destruct h; reflexivity.
Qed.

Lemma handle_invoked_once_after_loading_witness :
  List.filter is_CallHandle (emitted (handleEvent quiet_env loading_handler 0) inline_world)
    = [CallHandle loading_handler 0
         (enrich (heap inline_world 0) (Some (JStr "shipping-lines")))]
  /\ ev_fields (heap (snd (handleEvent quiet_env loading_handler 0 inline_world)) 0)
       !! "data" = Some (JStr "shipping-lines")
  /\ List.filter is_delivery
       (emitted (handleEvent quiet_env declining_handler 0) inline_world) = []
  /\ List.filter is_CallHandle
       (emitted (handleEvent quiet_env rejecting_loader_handler 0) inline_world) = [].
Proof.
  pose proof (handle_invoked_once_after_loading quiet_env loading_handler 0 inline_world)
    as (_ & _ & H).
  destruct (H (Some (JStr "shipping-lines")) eq_refl) as (H1 & _ & _ & H4 & _).
  pose proof (handle_invoked_once_after_loading quiet_env declining_handler 0 inline_world)
    as (_ & _ & G).
  destruct (G None eq_refl) as (_ & _ & _ & _ & _ & H6).
  pose proof (handle_invoked_once_after_loading quiet_env rejecting_loader_handler 0
                inline_world) as (_ & F & _).
  split; [exact H1|]. split; [exact (H4 _ eq_refl)|]. split; [apply (H6 eq_refl)|].
  apply (F (ThrownNullish UndefinedValue)). reflexivity.
Defined.

(** ** The delivery mode *)

Lemma filter_refines {X} (f g : X -> bool) (l : list X) :
  (forall x, f x = true -> g x = true) ->
  List.filter f (List.filter g l) = List.filter f l.
Proof.
  intros Hfg. induction l as [|x l IH]; simpl; [reflexivity|].
  destruct (g x) eqn:Hg; simpl.
  - now rewrite IH.
  - destruct (f x) eqn:Hf; [|exact IH].
    apply Hfg in Hf. congruence.
Qed.

Lemma flat_map_nil {X Y} (l : list X) : flat_map (fun _ : X => @nil Y) l = [].
Proof. induction l; simpl; auto. Qed.

(** The deliveries of one invocation: none, or the backend call the fields
    select for the payload. *)
Lemma handleEvent_deliveries env h ev w :
  exists t, trace (snd (handleEvent env h ev w)) = trace w ++ t
            /\ (List.filter is_delivery t = []
                \/ exists p, List.filter is_delivery t = delivery_actions (fields w) p).
Proof.
  destruct (handleEvent_run env h ev w) as (_ & _ & _ & _ & H).
  destruct (loader_outcome env h w ev) as [od|e]; destruct H as [_ ->];
    eexists; (split; [reflexivity|]); [|left; case_thrown; reflexivity].
  simpl. rewrite List.filter_app.
  replace (List.filter is_delivery (load_actions h ev)) with (@nil Action)
    by (destruct h; reflexivity).
  simpl.
  destruct (handle_outcome h w ev od) as [[p|]|e]; simpl; auto;
    [|left; case_thrown; reflexivity].
  right. exists p. rewrite List.filter_app. unfold delivery_actions.
  destruct (jobQueue (fields w)); simpl;
    try destruct (testingProcessor (fields w)); simpl;
    destruct (delivery_outcome env (fields w) p); case_thrown; reflexivity.
Qed.

Lemma handleEvent_no_add env h ev w :
  jobQueue (fields w) = None ->
  exists t, trace (snd (handleEvent env h ev w)) = trace w ++ t
            /\ List.filter is_JobQueueAdd t = [].
Proof.
  intros Hq. destruct (handleEvent_deliveries env h ev w) as (t & Ht & Hd).
  exists t. split; [exact Ht|].
  rewrite <- (filter_refines is_JobQueueAdd is_delivery)
    by (intros x Hx; unfold is_delivery; now rewrite Hx).
  destruct Hd as [-> | [p ->]]; [reflexivity|].
  unfold delivery_actions. rewrite Hq.
  destruct (testingProcessor (fields w)); reflexivity.
Qed.

Lemma handleEvent_no_process env h ev w q :
  jobQueue (fields w) = Some q ->
  exists t, trace (snd (handleEvent env h ev w)) = trace w ++ t
            /\ List.filter is_ProcessorProcess t = [].
Proof.
  intros Hq. destruct (handleEvent_deliveries env h ev w) as (t & Ht & Hd).
  exists t. split; [exact Ht|].
  rewrite <- (filter_refines is_ProcessorProcess is_delivery)
    by (intros x Hx; unfold is_delivery; rewrite Hx; apply orb_true_r).
  destruct Hd as [-> | [p ->]]; [reflexivity|].
  unfold delivery_actions. now rewrite Hq.
Qed.

(** Over any sequence of invocations the fields stay as they are, and so
    does the backend in use. *)
Lemma run_events_fields env invs w :
  fst (run_events env invs w) = Ok tt
  /\ fields (snd (run_events env invs w)) = fields w.
Proof.
  destruct (for_each_post (fun i => unawaited (handleEvent env (fst i) (snd i)))
              is_LoggerDebug (fun _ => True)
              (fun i _ => [debug_entry (fst i)]))
    with (l := invs) (w := w) as (Hok & Hst & _).
  - reflexivity.
  - intros i w0. apply handleEvent_stable.
  - trivial.
  - intros i w0 _. destruct (handleEvent_trace env (fst i) (snd i) w0) as (t & Ht & Hf).
    exists (debug_entry (fst i) :: t). split; [exact Ht|]. simpl. now rewrite Hf.
  - reflexivity.
  - exact I.
  - split; [exact Hok | apply Hst].
Qed.

Lemma run_events_no_add env invs w :
  jobQueue (fields w) = None ->
  List.filter is_JobQueueAdd (emitted (run_events env invs) w) = [].
Proof.
  intros Hq.
  destruct (for_each_post (fun i => unawaited (handleEvent env (fst i) (snd i)))
              is_JobQueueAdd (fun w0 => jobQueue (fields w0) = None)
              (fun _ _ => []))
    with (l := invs) (w := w) as (_ & _ & _ & t & Ht & Hf).
  - reflexivity.
  - intros i w0. apply handleEvent_stable.
  - intros i w0 H0. simpl. now rewrite handleEvent_fields.
  - intros i w0 H0. now apply handleEvent_no_add.
  - reflexivity.
  - exact Hq.
  - unfold run_events. rewrite (emitted_app _ _ _ Ht), Hf. apply flat_map_nil.
Qed.

Lemma run_events_no_process env invs w q :
  jobQueue (fields w) = Some q ->
  List.filter is_ProcessorProcess (emitted (run_events env invs) w) = [].
Proof.
  intros Hq.
  destruct (for_each_post (fun i => unawaited (handleEvent env (fst i) (snd i)))
              is_ProcessorProcess (fun w0 => jobQueue (fields w0) = Some q)
              (fun _ _ => []))
    with (l := invs) (w := w) as (_ & _ & _ & t & Ht & Hf).
  - reflexivity.
  - intros i w0. apply handleEvent_stable.
  - intros i w0 H0. simpl. now rewrite handleEvent_fields.
  - intros i w0 H0. now apply handleEvent_no_process with q.
  - reflexivity.
  - exact Hq.
  - unfold run_events. rewrite (emitted_app _ _ _ Ht), Hf. apply flat_map_nil.
Qed.

(** The backend fields after bootstrap of a fresh instance. *)
Lemma boot_backends env o h :
  (boot_result env o h = Ok tt ->
     if testing_transport o
     then testingProcessor (fields (boot env o h)) = Some tt
          /\ jobQueue (fields (boot env o h)) = None
     else jobQueue (fields (boot env o h)) = Some send_email_queue
          /\ testingProcessor (fields (boot env o h)) = None)
  /\ (jobQueue (fields (boot env o h)) = None
      \/ testingProcessor (fields (boot env o h)) = None).
Proof.
  unfold boot_result, boot.
  destruct (onVendureBootstrap env (fresh_world o h)) as [r w1] eqn:E.
  apply bootstrap_run in E. simpl in *.
  destruct E as (_ & _ & _ & E).
  destruct (if mailbox_configured o then devMailbox_serve env o else Ok tt) as [[]|e].
  - destruct E as [_ E]. destruct (testing_transport o).
    + destruct E as (_ & Hq & Hp & _). auto.
    + destruct E as (Hr & Hp & Hq & _). split; [|auto].
      intros ->. rewrite <- Hr in Hq. simpl in Hq. auto.
  - destruct E as (Hr & _ & Hq & Hp & _). split; [|auto].
    intros ->. discriminate.
Qed.

(** C6 as stated does not hold: when [createQueue] throws, bootstrap leaves
    neither backend defined, with the handlers already subscribed. *)
Lemma throwing_createQueue_leaves_no_backend :
  boot_result no_queue_env smtp_options sample_heap = Throw boom
  /\ jobQueue (fields (boot no_queue_env smtp_options sample_heap)) = None
  /\ testingProcessor (fields (boot no_queue_env smtp_options sample_heap)) = None
  /\ eventBus (boot no_queue_env smtp_options sample_heap)
     = map subscription_of (handlers smtp_options).
Proof.
  repeat split; reflexivity.
Qed.

(** C6, amended. Bootstrap of a fresh plugin instance never leaves both backends
    defined, and a bootstrap that completes leaves exactly one: the testing
    processor when the options read at bootstrap are not dev-mode options and
    name the testing transport, the send-email queue otherwise.  Afterwards,
    over any sequence of invocations of [handleEvent], and whatever the static
    options are changed to, the fields stay as bootstrap left them and every
    delivery goes to that one backend. *)
Theorem exactly_one_delivery_mode env o h :
  (jobQueue (fields (boot env o h)) = None
   \/ testingProcessor (fields (boot env o h)) = None)
  /\ (boot_result env o h = Ok tt ->
       (if testing_transport o
        then testingProcessor (fields (boot env o h)) = Some tt
             /\ jobQueue (fields (boot env o h)) = None
        else jobQueue (fields (boot env o h)) = Some send_email_queue
             /\ testingProcessor (fields (boot env o h)) = None)
       /\ forall o' invs,
            fields (snd (run_events env invs (with_options (boot env o h) o')))
              = fields (boot env o h)
            /\ if testing_transport o
               then List.filter is_JobQueueAdd
                      (emitted (run_events env invs) (with_options (boot env o h) o')) = []
               else List.filter is_ProcessorProcess
                      (emitted (run_events env invs) (with_options (boot env o h) o')) = []).
Proof.
  destruct (boot_backends env o h) as [Hone Hnot_both].
  split; [exact Hnot_both|].
  intros Hok. specialize (Hone Hok). split; [exact Hone|].
  intros o' invs.
  split; [apply (run_events_fields env invs (with_options (boot env o h) o'))|].
  destruct (testing_transport o); destruct Hone as [H1 H2].
  - now apply run_events_no_add.
  - now apply run_events_no_process with send_email_queue.
Qed.

Lemma exactly_one_delivery_mode_witness :
  (testingProcessor (fields (boot quiet_env testing_options sample_heap)) = Some tt
   /\ jobQueue (fields (boot quiet_env testing_options sample_heap)) = None)
  /\ (jobQueue (fields (boot quiet_env smtp_options sample_heap)) = Some send_email_queue
      /\ testingProcessor (fields (boot quiet_env smtp_options sample_heap)) = None).
Proof.
  split.
  - apply (exactly_one_delivery_mode quiet_env testing_options sample_heap). reflexivity.
  - apply (exactly_one_delivery_mode quiet_env smtp_options sample_heap). reflexivity.
Defined.

(** ** Queued delivery *)

Lemma subscribe_actions_filter (keep : Action -> bool) o :
  (forall s, keep (EventBusSubscribe s) = false) ->
  List.filter keep (subscribe_actions o) = [].
Proof.
  intros Hk. unfold subscribe_actions.
  induction (handlers o) as [|h hs IH]; simpl; [reflexivity|].
  now rewrite Hk.
Qed.

Lemma apply_process_run env job w :
  fst (apply_process env ProcSendToWorker job w) = Ok tt
  /\ emitted (apply_process env ProcSendToWorker job) w
     = WorkerServiceSend (mkEmailWorkerMessage (job_data job))
         :: match workerService_send env (mkEmailWorkerMessage (job_data job)) with
            | SendCompletes => [JobComplete job]
            | SendErrors err => [JobFail job err]
            | SendPending => []
            end.
Proof.
  unfold apply_process. run_js.
  destruct (workerService_send env (mkEmailWorkerMessage (job_data job))); simpl;
    (split; [reflexivity|]); apply emitted_app; run_js;
    rewrite <- ?app_assoc; reflexivity.
Qed.

(** C7. When bootstrap completes in queued mode (the options do not select
    the testing transport), it has created exactly one queue, named
    send-email, with concurrency 5, and kept it in [jobQueue].  From then on
    a payload returned by a handler is added to that queue, by the one
    delivery call of the invocation.  The queue's process callback sends the
    job's data to the worker in an [EmailWorkerMessage], completes the job
    exactly when the send completes and fails it, with the error, exactly
    when the send errors. *)
Theorem queued_mode_uses_one_queue env o h :
  boot_result env o h = Ok tt ->
  testing_transport o = false ->
  jobQueue (fields (boot env o h)) = Some send_email_queue
  /\ name send_email_queue = "send-email"
  /\ concurrency send_email_queue = 5
  /\ List.filter is_CreateQueue (trace (boot env o h)) = [CreateQueue send_email_queue]
  /\ (forall w hd ev od p,
        fields w = fields (boot env o h) ->
        loader_outcome env hd w ev = Ok od ->
        handle_outcome hd w ev od = Ok (Some p) ->
        List.filter is_delivery (emitted (handleEvent env hd ev) w)
          = [JobQueueAdd send_email_queue p])
  /\ (forall job w,
        fst (apply_process env (process send_email_queue) job w) = Ok tt
        /\ (exists rest,
              emitted (apply_process env (process send_email_queue) job) w
              = WorkerServiceSend (mkEmailWorkerMessage (job_data job)) :: rest)
        /\ (In (JobComplete job)
              (emitted (apply_process env (process send_email_queue) job) w)
            <-> workerService_send env (mkEmailWorkerMessage (job_data job)) = SendCompletes)
        /\ (forall err,
              In (JobFail job err)
                (emitted (apply_process env (process send_email_queue) job) w)
              <-> workerService_send env (mkEmailWorkerMessage (job_data job))
                  = SendErrors err)).
Proof.
  intros Hok Ht.
  destruct (boot_backends env o h) as [Hone _]. specialize (Hone Hok).
  rewrite Ht in Hone. destruct Hone as [Hq Hp].
  split; [exact Hq|]. split; [reflexivity|]. split; [reflexivity|].
  split; [|split].
  - unfold boot_result, boot in *.
    destruct (onVendureBootstrap env (fresh_world o h)) as [r w1] eqn:E.
    apply bootstrap_run in E. simpl in *. subst r.
    destruct E as (_ & _ & _ & E).
    destruct (if mailbox_configured o then devMailbox_serve env o else Ok tt) as [[]|e].
    + destruct E as [_ E]. rewrite Ht in E. destruct E as (_ & _ & _ & ->).
      rewrite !List.filter_app.
      rewrite subscribe_actions_filter by reflexivity.
      unfold mailbox_actions. destruct (mailbox_configured o); reflexivity.
    + destruct E as [E _]. discriminate.
  - intros w hd ev od p Hf Hl Hh.
    destruct (handleEvent_run env hd ev w) as (_ & _ & _ & _ & H).
    rewrite Hl in H. destruct H as [_ H]. rewrite (emitted_app _ _ _ H), Hh.
    simpl. rewrite !List.filter_app.
    replace (List.filter is_delivery (load_actions hd ev)) with (@nil Action)
      by (destruct hd; reflexivity).
    unfold delivery_actions. rewrite Hf, Hq. simpl.
    destruct (delivery_outcome env (fields (boot env o h)) p); case_thrown; reflexivity.
  - intros job w. change (process send_email_queue) with ProcSendToWorker.
    destruct (apply_process_run env job w) as [Hr He].
    split; [exact Hr|]. rewrite He. split; [eexists; reflexivity|].
    destruct (workerService_send env (mkEmailWorkerMessage (job_data job))) as [|err'|];
      simpl; (split; [|intros err]); intuition congruence.
Qed.

Lemma queued_mode_uses_one_queue_witness :
  jobQueue (fields (boot quiet_env smtp_options sample_heap)) = Some send_email_queue
  /\ List.filter is_CreateQueue (trace (boot quiet_env smtp_options sample_heap))
     = [CreateQueue send_email_queue]
  /\ List.filter is_delivery
       (emitted (handleEvent quiet_env confirmation_handler 0)
          (boot quiet_env smtp_options sample_heap))
     = [JobQueueAdd send_email_queue confirm_details].
Proof.
  pose proof (queued_mode_uses_one_queue quiet_env smtp_options sample_heap
                eq_refl eq_refl) as (H1 & _ & _ & H4 & H5 & _).
  split; [exact H1|]. split; [exact H4|].
  apply (H5 (boot quiet_env smtp_options sample_heap) confirmation_handler 0 None
            confirm_details); reflexivity.
Defined.

(** ** The dev mailbox *)

Lemma mailbox_configured_iff o :
  mailbox_configured o = true <-> isDevModeOptions o = true /\ mailboxPort o <> None.
Proof.
  unfold mailbox_configured. rewrite andb_true_iff, bool_decide_eq_true. reflexivity.
Qed.

(** The dev-mailbox calls of a bootstrap. *)
Lemma boot_mailbox env o h :
  devMailbox (fields (boot env o h)) = (if mailbox_configured o then Some tt else None)
  /\ List.filter is_DevMailbox (trace (boot env o h))
     = (if mailbox_configured o
        then if is_ok (devMailbox_serve env o)
             then [NewDevMailbox; DevMailboxServe o; DevMailboxHandleMockEvent MockHandleEvent]
             else [NewDevMailbox; DevMailboxServe o]
        else [])
  /\ (boot_result env o h = Ok tt -> mailbox_configured o = true ->
       is_ok (devMailbox_serve env o) = true).
Proof.
  unfold boot_result, boot.
  destruct (onVendureBootstrap env (fresh_world o h)) as [r w1] eqn:E.
  apply bootstrap_run in E. simpl in *.
  destruct E as (_ & _ & Hd & E).
  split; [exact Hd|]. unfold mailbox_actions in E.
  destruct (mailbox_configured o).
  - destruct (devMailbox_serve env o) as [[]|e].
    + split; [|reflexivity]. destruct E as [_ E].
      destruct (testing_transport o).
      * destruct E as (_ & _ & _ & ->). simpl. rewrite !List.filter_app.
        rewrite subscribe_actions_filter by reflexivity. reflexivity.
      * destruct E as (_ & _ & _ & ->). simpl. rewrite !List.filter_app.
        rewrite subscribe_actions_filter by reflexivity. reflexivity.
    + destruct E as (-> & _ & _ & _ & ->). split; [reflexivity|]. discriminate.
  - split; [|discriminate]. destruct E as [_ E].
    destruct (testing_transport o).
    + destruct E as (_ & _ & _ & ->). simpl. rewrite !List.filter_app.
      rewrite subscribe_actions_filter by reflexivity. reflexivity.
    + destruct E as (_ & _ & _ & ->). simpl. rewrite !List.filter_app.
      rewrite subscribe_actions_filter by reflexivity. reflexivity.
Qed.

Lemma in_mailbox_trace (a : Action) (l : list Action) :
  is_DevMailbox a = true -> (In a l <-> In a (List.filter is_DevMailbox l)).
Proof. intros Ha. rewrite List.filter_In. tauto. Qed.

Lemma onVendureClose_run w :
  fst (onVendureClose w) = Ok tt
  /\ emitted onVendureClose w
     = match devMailbox (fields w) with
       | Some _ => [DevMailboxDestroy]
       | None => []
       end.
Proof.
  unfold onVendureClose. run_js.
  destruct (devMailbox (fields w)) eqn:Hd; simpl; (split; [reflexivity|]);
    apply emitted_app; run_js; rewrite Hd; simpl; now rewrite ?app_nil_r.
Qed.

(** C8 as stated does not hold: with dev-mode options and a defined
    [mailboxPort], a [serve] that throws ends bootstrap before
    [handleMockEvent] is called, so the mailbox is created and [serve] is
    called, but no mock-event callback is registered. *)
Lemma throwing_serve_leaves_mailbox_unwired :
  (isDevModeOptions dev_options = true /\ mailboxPort dev_options <> None)
  /\ devMailbox_serve no_queue_env dev_options = Throw boom
  /\ devMailbox (fields (boot no_queue_env dev_options sample_heap)) = Some tt
  /\ In (DevMailboxServe dev_options) (trace (boot no_queue_env dev_options sample_heap))
  /\ ~ In (DevMailboxHandleMockEvent MockHandleEvent)
         (trace (boot no_queue_env dev_options sample_heap)).
Proof.
  split; [split; [reflexivity | discriminate]|].
  split; [reflexivity|]. split; [reflexivity|].
  split; [simpl; auto|].
  simpl. intros [H|[H|[]]]; discriminate.
Qed.

(** C8, amended. Bootstrap of a fresh instance creates the dev mailbox and
    calls its [serve] exactly when the options are dev-mode options with a
    defined [mailboxPort]; it registers the mock-event callback exactly when,
    in addition, [serve] does not throw, and that callback is [handleEvent]
    itself.  [onVendureClose] calls [destroy] exactly when the [devMailbox]
    field is defined, so a teardown after bootstrap and any number of events
    destroys the mailbox exactly when bootstrap created it. *)
Theorem dev_mailbox_lifecycle env o h :
  (devMailbox (fields (boot env o h)) = Some tt
   <-> isDevModeOptions o = true /\ mailboxPort o <> None)
  /\ (In NewDevMailbox (trace (boot env o h))
      <-> isDevModeOptions o = true /\ mailboxPort o <> None)
  /\ (In (DevMailboxServe o) (trace (boot env o h))
      <-> isDevModeOptions o = true /\ mailboxPort o <> None)
  /\ (In (DevMailboxHandleMockEvent MockHandleEvent) (trace (boot env o h))
      <-> (isDevModeOptions o = true /\ mailboxPort o <> None)
          /\ is_ok (devMailbox_serve env o) = true)
  /\ (forall hd ev, apply_mock_callback env MockHandleEvent hd ev = handleEvent env hd ev)
  /\ (forall w,
        fst (onVendureClose w) = Ok tt
        /\ emitted onVendureClose w
           = match devMailbox (fields w) with
             | Some _ => [DevMailboxDestroy]
             | None => []
             end)
  /\ (forall invs,
        In DevMailboxDestroy
          (emitted onVendureClose (snd (run_events env invs (boot env o h))))
        <-> devMailbox (fields (boot env o h)) = Some tt).
Proof.
  destruct (boot_mailbox env o h) as (Hd & Ht & Hs).
  rewrite <- !mailbox_configured_iff.
  rewrite (in_mailbox_trace NewDevMailbox) by reflexivity.
  rewrite (in_mailbox_trace (DevMailboxServe o)) by reflexivity.
  rewrite (in_mailbox_trace (DevMailboxHandleMockEvent MockHandleEvent)) by reflexivity.
  rewrite Ht, Hd.
  split; [|split; [|split; [|split; [|split; [|split]]]]].
  - destruct (mailbox_configured o); intuition congruence.
  - destruct (mailbox_configured o); [|simpl; intuition congruence].
    destruct (devMailbox_serve env o); simpl; intuition congruence.
  - destruct (mailbox_configured o); [|simpl; intuition congruence].
    destruct (devMailbox_serve env o); simpl; intuition congruence.
  - destruct (mailbox_configured o); [|simpl; intuition congruence].
    destruct (devMailbox_serve env o); simpl; intuition congruence.
  - reflexivity.
  - apply onVendureClose_run.
  - intros invs.
    destruct (onVendureClose_run (snd (run_events env invs (boot env o h)))) as [_ ->].
    destruct (run_events_fields env invs (boot env o h)) as [_ ->].
    rewrite Hd. destruct (mailbox_configured o); simpl; intuition congruence.
Qed.

Lemma dev_mailbox_lifecycle_witness :
  In (DevMailboxHandleMockEvent MockHandleEvent)
     (trace (boot quiet_env dev_options sample_heap))
  /\ In DevMailboxDestroy
       (emitted onVendureClose (snd (run_events quiet_env [] (boot quiet_env dev_options sample_heap)))).
Proof.
  pose proof (dev_mailbox_lifecycle quiet_env dev_options sample_heap)
    as (_ & _ & _ & H4 & _ & _ & H7).
  split.
  - apply H4. split; [split; [reflexivity | discriminate] | reflexivity].
  - apply H7. reflexivity.
Defined.

(** ** Enrichment in place *)

(** Whatever the handler and the outcome, an invocation on [ev] changes no
    other event, and on [ev] nothing but its [data]. *)
Lemma handleEvent_frame env h ev w l k :
  l <> ev \/ k <> "data" ->
  ev_fields (heap (snd (handleEvent env h ev w)) l) !! k = ev_fields (heap w l) !! k.
Proof.
  intros Hlk. rewrite handleEvent_heap.
  destruct (loader_outcome env h w ev) as [[d|]|e]; simpl; try reflexivity.
  unfold heap_update. destruct (Nat.eqb_spec l ev) as [->|Hne]; [|reflexivity].
  destruct Hlk as [Hl|Hk]; [contradiction|].
  simpl. apply lookup_insert_ne. congruence.
Qed.

(** C9. When the loader of an async-data handler returns [d], the dispatch
    writes [d] into the [data] property of the very event object it was
    given: after the invocation the object at [ev] is the old one with [data]
    set, so its class and every other property are as before, every other
    object is untouched, and a later invocation of any plain handler on the
    same reference passes an object carrying that [data] to the handler
    body.  No invocation, of any handler, changes anything else in the
    heap. *)
Theorem enrichment_mutates_the_event_in_place env b load ev w d :
  load (loader_args env w ev) = Ok d ->
  heap (snd (handleEvent env (EmailEventHandlerWithAsyncData b load) ev w)) ev
    = set_data (heap w ev) d
  /\ ev_fields (heap (snd (handleEvent env (EmailEventHandlerWithAsyncData b load) ev w)) ev)
       !! "data" = Some d
  /\ ev_class (heap (snd (handleEvent env (EmailEventHandlerWithAsyncData b load) ev w)) ev)
     = ev_class (heap w ev)
  /\ (forall l, l <> ev ->
        heap (snd (handleEvent env (EmailEventHandlerWithAsyncData b load) ev w)) l
        = heap w l)
  /\ (forall env' b',
        exists rest,
          emitted (handleEvent env' (EmailEventHandler b') ev)
                  (snd (handleEvent env (EmailEventHandlerWithAsyncData b load) ev w))
          = debug_entry (EmailEventHandler b')
              :: CallHandle (EmailEventHandler b') ev (set_data (heap w ev) d)
              :: rest)
  /\ (forall h' l k,
        l <> ev \/ k <> "data" ->
        ev_fields (heap (snd (handleEvent env h' ev w)) l) !! k
        = ev_fields (heap w l) !! k).
Proof.
  intros Hl.
  assert (Hheap : heap (snd (handleEvent env (EmailEventHandlerWithAsyncData b load) ev w))
                  = heap_update (heap w) ev (set_data (heap w ev) d)).
  { rewrite handleEvent_heap. simpl. now rewrite Hl. }
  rewrite Hheap.
  split; [apply heap_update_same|].
  split; [rewrite heap_update_same; apply lookup_insert_eq|].
  split; [now rewrite heap_update_same|].
  split; [intros l Hne; now apply heap_update_other|].
  split; [|intros h' l k; apply handleEvent_frame].
  intros env' b'.
  destruct (handleEvent_run env' (EmailEventHandler b') ev
              (snd (handleEvent env (EmailEventHandlerWithAsyncData b load) ev w)))
    as (_ & _ & _ & _ & H).
  simpl in H. destruct H as [_ H].
  rewrite (emitted_app _ _ _ H). rewrite Hheap, heap_update_same.
  eexists. reflexivity.
Qed.

Lemma enrichment_mutates_the_event_in_place_witness :
  heap (snd (handleEvent quiet_env loading_handler 0 inline_world)) 0
    = set_data (heap inline_world 0) (JStr "shipping-lines")
  /\ ev_fields (heap (snd (handleEvent quiet_env loading_handler 0 inline_world)) 0)
       !! "toState" = Some (JStr "PaymentSettled").
Proof.
  pose proof (enrichment_mutates_the_event_in_place quiet_env confirmation_base
                (fun _ => Ok (JStr "shipping-lines")) 0 inline_world
                (JStr "shipping-lines") eq_refl) as (H1 & _ & _ & _ & _ & H6).
  split; [exact H1|].
  rewrite (H6 loading_handler 0 "toState") by (right; discriminate).
  reflexivity.
Defined.

(** ** No backend *)

(** C10. While both [jobQueue] and [testingProcessor] are undefined, as in a
    fresh instance whose bootstrap has not assigned them yet, a payload
    returned by the handler is dropped: the invocation ends normally after
    the call of the handler body, with no delivery call and no error
    entry. *)
Theorem payload_dropped_without_backend env h ev w od p :
  jobQueue (fields w) = None ->
  testingProcessor (fields w) = None ->
  loader_outcome env h w ev = Ok od ->
  handle_outcome h w ev od = Ok (Some p) ->
  fst (handleEvent env h ev w) = Ok tt
  /\ emitted (handleEvent env h ev) w
     = debug_entry h :: load_actions h ev ++ [CallHandle h ev (enrich (heap w ev) od)]
  /\ List.filter is_delivery (emitted (handleEvent env h ev) w) = []
  /\ List.filter is_LoggerError (emitted (handleEvent env h ev) w) = [].
Proof.
  intros Hq Hp Hl Hh.
  destruct (handleEvent_run env h ev w) as (Hok & _ & _ & _ & H).
  unfold invocation_result, failure_of in Hok.
  rewrite Hl in H, Hok. rewrite Hh in Hok. destruct H as [_ H].
  rewrite (emitted_app _ _ _ H), Hh. clear H.
  unfold delivery_actions, delivery_outcome in *. rewrite Hq, Hp in *. simpl.
  split; [exact Hok|]. split; [reflexivity|].
  rewrite !List.filter_app. split; destruct h; reflexivity.
Qed.

Lemma payload_dropped_without_backend_witness :
  fst (handleEvent quiet_env confirmation_handler 0 (fresh_world smtp_options sample_heap))
    = Ok tt
  /\ emitted (handleEvent quiet_env confirmation_handler 0)
             (fresh_world smtp_options sample_heap)
     = debug_entry confirmation_handler :: load_actions confirmation_handler 0
         ++ [CallHandle confirmation_handler 0
               (enrich (heap (fresh_world smtp_options sample_heap) 0) None)]
  /\ List.filter is_delivery
       (emitted (handleEvent quiet_env confirmation_handler 0)
                (fresh_world smtp_options sample_heap)) = []
  /\ List.filter is_LoggerError
       (emitted (handleEvent quiet_env confirmation_handler 0)
                (fresh_world smtp_options sample_heap)) = [].
Proof.
  apply (payload_dropped_without_backend quiet_env confirmation_handler 0
           (fresh_world smtp_options sample_heap) None confirm_details); reflexivity.
Defined.

(** * Further properties of the plugin *)

(** ** The shape of one invocation *)

(** Within one invocation of [handleEvent] the calls come in the order debug
    line, loader, handler body, delivery, error entry, and none of these
    steps occurs twice; the debug line is always the first call. *)
Theorem invocation_steps_in_order env h ev w :
  StronglySorted lt (map phase (emitted (handleEvent env h ev) w))
  /\ head (emitted (handleEvent env h ev) w) = Some (debug_entry h).
Proof.
  destruct (handleEvent_run env h ev w) as (_ & _ & _ & _ & H).
  destruct (loader_outcome env h w ev) as [od|e]; destruct H as [_ H];
    rewrite (emitted_app _ _ _ H); clear H.
  - split; [|reflexivity].
    unfold delivery_actions.
    destruct h; simpl;
      destruct (handle_outcome _ w ev od) as [[p|]|e]; simpl;
      try destruct (jobQueue (fields w)); simpl;
      try destruct (testingProcessor (fields w)); simpl;
      try destruct (delivery_outcome env (fields w) p); simpl;
      case_thrown; simpl; repeat (constructor; try lia).
  - split; [|reflexivity]. case_thrown; simpl; repeat (constructor; try lia).
Qed.

(** An invocation writes an error entry exactly when one of its steps raised
    a failure whose value is not [null] or [undefined], and it rejects
    exactly when one of its steps raised a failure whose value is [null] or
    [undefined]; without a failure in loading, in the handler body or in
    delivery it ends normally with no error entry. *)
Theorem error_logged_iff_failure env h ev w :
  (List.filter is_LoggerError (emitted (handleEvent env h ev) w) = []
   <-> forall e : JsError, ~ raises env h ev w e)
  /\ (fst (handleEvent env h ev w) = Ok tt
      <-> forall n, ~ raises env h ev w (ThrownNullish n)).
Proof.
  split; split.
  - intros Hf e Hr.
    destruct (raises_logged env h ev w e Hr) as (_ & t & Ht & _).
    rewrite Ht, List.filter_app in Hf. simpl in Hf.
    apply app_eq_nil in Hf. destruct Hf as [_ Hf]. discriminate.
  - intros Hn.
    destruct (handleEvent_run env h ev w) as (_ & _ & _ & _ & H).
    destruct (loader_outcome env h w ev) as [od|[e|n]] eqn:Hl.
    + destruct H as [_ H]. rewrite (emitted_app _ _ _ H). clear H.
      destruct (handle_outcome h w ev od) as [[p|]|[e|n]] eqn:Hh.
      * destruct (delivery_outcome env (fields w) p) as [u|[e|n]] eqn:Hd.
        -- simpl. rewrite !List.filter_app. unfold delivery_actions.
           destruct h; simpl; destruct (jobQueue (fields w)); simpl;
             try destruct (testingProcessor (fields w)); reflexivity.
        -- exfalso. apply (Hn e). now apply raises_delivery with od p.
        -- simpl. rewrite !List.filter_app. unfold delivery_actions.
           destruct h; simpl; destruct (jobQueue (fields w)); simpl;
             try destruct (testingProcessor (fields w)); reflexivity.
      * simpl. rewrite !List.filter_app. destruct h; reflexivity.
      * exfalso. apply (Hn e). now apply raises_handle with od.
      * simpl. rewrite !List.filter_app. destruct h; reflexivity.
    + exfalso. apply (Hn e). now apply raises_loading.
    + destruct H as [_ H]. rewrite (emitted_app _ _ _ H). reflexivity.
  - intros Hok n Hr.
    destruct (raises_nullish_escapes env h ev w n Hr) as [Hres _].
    rewrite Hres in Hok. discriminate.
  - intros Hn. rewrite handleEvent_result. unfold invocation_result, failure_of.
    destruct (loader_outcome env h w ev) as [od|[e|n]] eqn:Hl; [|reflexivity|].
    + destruct (handle_outcome h w ev od) as [[p|]|[e|n]] eqn:Hh;
        [|reflexivity|reflexivity|].
      * destruct (delivery_outcome env (fields w) p) as [u|[e|n]] eqn:Hd;
          [reflexivity|reflexivity|].
        exfalso. apply (Hn n). now apply raises_delivery with od p.
      * exfalso. apply (Hn n). now apply raises_handle with od.
    + exfalso. apply (Hn n). now apply raises_loading.
Qed.

(** ** Delivery *)

Lemma exists_filter {X} (f : X -> bool) (l : list X) :
  (exists a, In a l /\ f a = true) <-> List.filter f l <> [].
Proof.
  split.
  - intros (a & Hin & Ha) Hnil.
    assert (Hf : In a (List.filter f l)) by (apply List.filter_In; auto).
    rewrite Hnil in Hf. contradiction.
  - destruct (List.filter f l) as [|a t] eqn:Hf; [congruence|]. intros _.
    exists a. apply List.filter_In. rewrite Hf. simpl. auto.
Qed.

(** An invocation makes a delivery call exactly when loading did not fail,
    the handler body returned a payload and one of the two backends is
    defined. *)
Theorem delivery_call_iff env h ev w :
  (exists a, In a (emitted (handleEvent env h ev) w) /\ is_delivery a = true)
  <-> exists od p,
        loader_outcome env h w ev = Ok od
        /\ handle_outcome h w ev od = Ok (Some p)
        /\ (jobQueue (fields w) <> None \/ testingProcessor (fields w) <> None).
Proof.
  rewrite exists_filter.
  destruct (handleEvent_run env h ev w) as (_ & _ & _ & _ & H).
  destruct (loader_outcome env h w ev) as [od|e] eqn:Hl; destruct H as [_ H];
    rewrite (emitted_app _ _ _ H); clear H.
  - destruct (handle_outcome h w ev od) as [[p|]|e] eqn:Hh.
    + unfold delivery_actions.
      destruct (jobQueue (fields w)) as [q|] eqn:Hq;
        [|destruct (testingProcessor (fields w)) as [u|] eqn:Hp].
      * split; [|destruct h, (delivery_outcome env (fields w) p); case_thrown; discriminate].
        intros _. exists od, p. split; [reflexivity|]. split; [exact Hh|].
        left. discriminate.
      * split; [|destruct h, (delivery_outcome env (fields w) p); case_thrown; discriminate].
        intros _. exists od, p. split; [reflexivity|]. split; [exact Hh|].
        right. discriminate.
      * split.
        -- intros Hne. exfalso. apply Hne.
           destruct h, (delivery_outcome env (fields w) p); case_thrown; reflexivity.
        -- intros (od' & p' & _ & _ & [Hc|Hc]); congruence.
    + split.
      * intros Hne. exfalso. apply Hne. destruct h; case_thrown; reflexivity.
      * intros (od' & p' & Ho & Hh' & _). congruence.
    + split.
      * intros Hne. exfalso. apply Hne. destruct h; case_thrown; reflexivity.
      * intros (od' & p' & Ho & Hh' & _). congruence.
  - split.
    + intros Hne. exfalso. apply Hne. case_thrown; reflexivity.
    + intros (od' & p' & Ho & _). discriminate.
Qed.

(** When [jobQueue] is defined the queue is used, whether or not a testing
    processor is defined as well: a payload is added to the queue by the one
    delivery call of the invocation, and over any sequence of invocations
    [process] is never called. *)
Theorem queue_takes_precedence env w q :
  jobQueue (fields w) = Some q ->
  (forall h ev od p,
      loader_outcome env h w ev = Ok od ->
      handle_outcome h w ev od = Ok (Some p) ->
      List.filter is_delivery (emitted (handleEvent env h ev) w) = [JobQueueAdd q p])
  /\ (forall invs,
        List.filter is_ProcessorProcess (emitted (run_events env invs) w) = []).
Proof.
  intros Hq. split.
  - intros h ev od p Hl Hh.
    destruct (handleEvent_run env h ev w) as (_ & _ & _ & _ & H).
    rewrite Hl in H. destruct H as [_ H]. rewrite (emitted_app _ _ _ H), Hh.
    unfold delivery_actions. rewrite Hq.
    destruct h, (delivery_outcome env (fields w) p); case_thrown; reflexivity.
  - intros invs. now apply run_events_no_process with q.
Qed.

Lemma queue_takes_precedence_witness :
  testingProcessor (fields queued_world) = Some tt
  /\ List.filter is_delivery (emitted (handleEvent quiet_env confirmation_handler 0) queued_world)
     = [JobQueueAdd send_email_queue confirm_details].
Proof.
  split; [reflexivity|].
  apply (queue_takes_precedence quiet_env queued_world send_email_queue eq_refl)
    with (od := None); reflexivity.
Defined.

(** In queued mode a failure of [jobQueue.add] with a value other than
    [null] or [undefined] is caught: the invocation ends normally, [add] was
    called once with the payload and the failure is the last entry, logged
    with its message and stack.  When [add] fails with [null] or
    [undefined], [add] was called once as well, but the invocation rejects
    with the TypeError of the catch clause and logs nothing. *)
Theorem enqueue_failure_is_logged env h ev w q od p (e : JsError) :
  jobQueue (fields w) = Some q ->
  loader_outcome env h w ev = Ok od ->
  handle_outcome h w ev od = Ok (Some p) ->
  (jobQueue_add env q p = Throw e ->
   fst (handleEvent env h ev w) = Ok tt
   /\ emitted (handleEvent env h ev) w
      = debug_entry h :: load_actions h ev
          ++ [CallHandle h ev (enrich (heap w ev) od); JobQueueAdd q p; error_entry e])
  /\ (forall n,
        jobQueue_add env q p = Throw (ThrownNullish n) ->
        fst (handleEvent env h ev w) = Throw (typeError_reading_message env n)
        /\ emitted (handleEvent env h ev) w
           = debug_entry h :: load_actions h ev
               ++ [CallHandle h ev (enrich (heap w ev) od); JobQueueAdd q p]).
Proof.
  intros Hq Hl Hh.
  destruct (handleEvent_run env h ev w) as (Hok & _ & _ & _ & H).
  unfold invocation_result, failure_of in Hok.
  rewrite Hl in H, Hok. rewrite Hh in H, Hok. destruct H as [_ H].
  unfold delivery_actions, delivery_outcome in *. rewrite Hq in *.
  split.
  - intros Hd. rewrite Hd in *. split; [exact Hok|].
    apply emitted_app. rewrite H. reflexivity.
  - intros n Hd. rewrite Hd in *. split; [exact Hok|].
    apply emitted_app. rewrite H. reflexivity.
Qed.

Lemma enqueue_failure_is_logged_witness :
  fst (handleEvent failing_delivery_env confirmation_handler 0 queued_world) = Ok tt
  /\ emitted (handleEvent failing_delivery_env confirmation_handler 0) queued_world
     = debug_entry confirmation_handler :: load_actions confirmation_handler 0
         ++ [CallHandle confirmation_handler 0 (enrich (heap queued_world 0) None);
             JobQueueAdd send_email_queue confirm_details; error_entry boom].
Proof.
  apply (enqueue_failure_is_logged failing_delivery_env confirmation_handler 0
           queued_world send_email_queue None confirm_details boom eq_refl eq_refl eq_refl).
  reflexivity.
Defined.

(** ** The static options at event time *)

(** [handleEvent] reads the static options when it calls the handler body,
    and reads nothing of them but [globalTemplateVars]: after [init] with
    either of two option values that agree on the global template
    variables, an invocation makes the same calls and leaves the same
    heap and fields. *)
Theorem invocation_depends_on_global_vars_only env h ev w o1 o2 :
  globalTemplateVars o1 = globalTemplateVars o2 ->
  emitted (handleEvent env h ev) (snd (init o1 w))
    = emitted (handleEvent env h ev) (snd (init o2 w))
  /\ heap (snd (handleEvent env h ev (snd (init o1 w))))
     = heap (snd (handleEvent env h ev (snd (init o2 w))))
  /\ fields (snd (handleEvent env h ev (snd (init o1 w))))
     = fields (snd (handleEvent env h ev (snd (init o2 w)))).
Proof.
  intros Hg.
  destruct (handleEvent_run env h ev (snd (init o1 w))) as (_ & Hf1 & _ & _ & H1).
  destruct (handleEvent_run env h ev (snd (init o2 w))) as (_ & Hf2 & _ & _ & H2).
  rewrite Hf1, Hf2. split; [|split; [|reflexivity]].
  - change (loader_outcome env h (snd (init o1 w)) ev)
      with (loader_outcome env h w ev) in H1.
    change (loader_outcome env h (snd (init o2 w)) ev)
      with (loader_outcome env h w ev) in H2.
    destruct (loader_outcome env h w ev) as [od|e].
    + destruct H1 as [_ H1], H2 as [_ H2].
      rewrite (emitted_app _ _ _ H1), (emitted_app _ _ _ H2).
      unfold handle_outcome. simpl. now rewrite Hg.
    + destruct H1 as [_ H1], H2 as [_ H2].
      now rewrite (emitted_app _ _ _ H1), (emitted_app _ _ _ H2).
  - rewrite !handleEvent_heap.
    change (loader_outcome env h (snd (init o1 w)) ev)
      with (loader_outcome env h w ev).
    change (loader_outcome env h (snd (init o2 w)) ev)
      with (loader_outcome env h w ev).
    destruct (loader_outcome env h w ev) as [[d|]|e]; reflexivity.
Qed.

Lemma invocation_depends_on_global_vars_only_witness :
  emitted (handleEvent quiet_env confirmation_handler 0) (snd (init testing_options inline_world))
  = emitted (handleEvent quiet_env confirmation_handler 0) (snd (init dev_options inline_world)).
Proof.
  apply (invocation_depends_on_global_vars_only quiet_env confirmation_handler 0
           inline_world testing_options dev_options).
  reflexivity.
Defined.

(** ** Two loaders on one event *)

(** When an invocation of an async-data handler on an event has completed
    and a second async-data handler is then invoked on the same event object,
    the second loader is given the event carrying the first loader's data,
    and its result replaces that data: afterwards the event is the original
    one with [data] set to the second value.  (Two invocations started by
    one publication are both pending at once; this is about invocations
    that follow each other.) *)
Theorem second_loader_overwrites_data env b1 load1 b2 load2 ev w d1 d2 :
  load1 (loader_args env w ev) = Ok d1 ->
  load2 (loader_args env
           (snd (handleEvent env (EmailEventHandlerWithAsyncData b1 load1) ev w)) ev)
    = Ok d2 ->
  la_event (loader_args env
              (snd (handleEvent env (EmailEventHandlerWithAsyncData b1 load1) ev w)) ev)
    = set_data (heap w ev) d1
  /\ heap (snd (handleEvent env (EmailEventHandlerWithAsyncData b2 load2) ev
                 (snd (handleEvent env (EmailEventHandlerWithAsyncData b1 load1) ev w)))) ev
     = set_data (heap w ev) d2
  /\ ev_fields
       (heap (snd (handleEvent env (EmailEventHandlerWithAsyncData b2 load2) ev
                     (snd (handleEvent env (EmailEventHandlerWithAsyncData b1 load1) ev w))))
             ev) !! "data" = Some d2.
Proof.
  intros H1 H2.
  assert (Hh1 : heap (snd (handleEvent env (EmailEventHandlerWithAsyncData b1 load1) ev w))
                = heap_update (heap w) ev (set_data (heap w ev) d1)).
  { rewrite handleEvent_heap. simpl. now rewrite H1. }
  assert (Ha : la_event (loader_args env
                 (snd (handleEvent env (EmailEventHandlerWithAsyncData b1 load1) ev w)) ev)
               = set_data (heap w ev) d1).
  { unfold loader_args. simpl. rewrite Hh1. apply heap_update_same. }
  split; [exact Ha|].
  assert (Hh2 : heap (snd (handleEvent env (EmailEventHandlerWithAsyncData b2 load2) ev
                 (snd (handleEvent env (EmailEventHandlerWithAsyncData b1 load1) ev w)))) ev
                = set_data (heap w ev) d2).
  { rewrite handleEvent_heap. simpl. rewrite H2. simpl.
    rewrite heap_update_same, Hh1, heap_update_same.
    unfold set_data. simpl. f_equal. apply insert_insert_eq. }
  split; [exact Hh2|]. rewrite Hh2. simpl. apply lookup_insert_eq.
Qed.

Lemma second_loader_overwrites_data_witness :
  ev_fields
    (heap (snd (handleEvent quiet_env relabelling_handler 0
                  (snd (handleEvent quiet_env loading_handler 0 inline_world)))) 0)
    !! "data" = Some (JStr "billing-lines").
Proof.
  apply (second_loader_overwrites_data quiet_env
           confirmation_base (fun _ => Ok (JStr "shipping-lines"))
           confirmation_base (fun _ => Ok (JStr "billing-lines"))
           0 inline_world (JStr "shipping-lines") (JStr "billing-lines"));
    reflexivity.
Defined.

(** ** Bootstrap that does not complete *)

Lemma handleEvent_no_delivery env h ev w :
  jobQueue (fields w) = None ->
  testingProcessor (fields w) = None ->
  exists t, trace (snd (handleEvent env h ev w)) = trace w ++ t
            /\ List.filter is_delivery t = [].
Proof.
  intros Hq Hp. destruct (handleEvent_deliveries env h ev w) as (t & Ht & Hd).
  exists t. split; [exact Ht|].
  destruct Hd as [Hd | [p Hd]]; [exact Hd|].
  rewrite Hd. unfold delivery_actions. now rewrite Hq, Hp.
Qed.

Lemma run_events_no_delivery env invs w :
  jobQueue (fields w) = None ->
  testingProcessor (fields w) = None ->
  List.filter is_delivery (emitted (run_events env invs) w) = [].
Proof.
  intros Hq Hp.
  destruct (for_each_post (fun i => unawaited (handleEvent env (fst i) (snd i)))
              is_delivery
              (fun w0 => jobQueue (fields w0) = None /\ testingProcessor (fields w0) = None)
              (fun _ _ => []))
    with (l := invs) (w := w) as (_ & _ & _ & t & Ht & Hf).
  - reflexivity.
  - intros i w0. apply handleEvent_stable.
  - intros i w0 H0. simpl. now rewrite handleEvent_fields.
  - intros i w0 [H0 H1]. now apply handleEvent_no_delivery.
  - reflexivity.
  - auto.
  - unfold run_events. rewrite (emitted_app _ _ _ Ht), Hf. apply flat_map_nil.
Qed.

Lemma boot_result_run env o h :
  boot_result env o h
  = match serve_outcome env o with
    | Throw e => Throw e
    | Ok _ =>
        match backend_outcome env o with
        | Throw e => Throw e
        | Ok _ => Ok tt
        end
    end.
Proof.
  unfold boot_result, serve_outcome, backend_outcome.
  destruct (onVendureBootstrap env (fresh_world o h)) as [r w1] eqn:E.
  apply bootstrap_run in E. simpl in *.
  destruct E as (_ & _ & _ & E).
  destruct (if mailbox_configured o then devMailbox_serve env o else Ok tt) as [u|e].
  - destruct E as [_ E]. destruct (testing_transport o).
    + destruct E as (-> & _). now destruct (processor_init env) as [[]|e].
    + destruct E as (-> & _).
      now destruct (createQueue_outcome env send_email_queue) as [[]|e].
  - now destruct E as (-> & _).
Qed.

(** [onVendureBootstrap] catches nothing and adds no failure of its own: it
    completes exactly when its awaited steps succeed ([serve] of the dev
    mailbox if there is one, then [init] of the testing processor or
    [createQueue]), and when it rejects, the error is the one of the step
    that failed. *)
Theorem bootstrap_completes_iff_steps_succeed env o h :
  (boot_result env o h = Ok tt
   <-> is_ok (serve_outcome env o) = true /\ is_ok (backend_outcome env o) = true)
  /\ (forall e,
        boot_result env o h = Throw e ->
        serve_outcome env o = Throw e
        \/ (is_ok (serve_outcome env o) = true /\ backend_outcome env o = Throw e)).
Proof.
  rewrite boot_result_run.
  destruct (serve_outcome env o) as [u|e1]; simpl.
  - destruct (backend_outcome env o) as [u'|e2]; simpl.
    + split; [tauto|]. discriminate.
    + split.
      * split; [discriminate | intros [_ H]; discriminate].
      * intros e [= ->]. auto.
  - split.
    + split; [discriminate | intros [H _]; discriminate].
    + intros e [= ->]. auto.
Qed.

Lemma bootstrap_completes_iff_steps_succeed_witness :
  serve_outcome no_queue_env smtp_options = Throw boom
  \/ (is_ok (serve_outcome no_queue_env smtp_options) = true
      /\ backend_outcome no_queue_env smtp_options = Throw boom).
Proof.
  apply (bootstrap_completes_iff_steps_succeed no_queue_env smtp_options sample_heap).
  reflexivity.
Defined.

(** When [createQueue] throws, bootstrap rejects with that error after the
    handlers were subscribed and with neither backend defined: from then on
    no invocation of [handleEvent] delivers anything. *)
Theorem queue_creation_failure_drops_payloads env o h e :
  serve_outcome env o = Ok tt ->
  testing_transport o = false ->
  createQueue_outcome env send_email_queue = Throw e ->
  boot_result env o h = Throw e
  /\ jobQueue (fields (boot env o h)) = None
  /\ testingProcessor (fields (boot env o h)) = None
  /\ eventBus (boot env o h) = map subscription_of (handlers o)
  /\ forall invs,
       List.filter is_delivery (emitted (run_events env invs) (boot env o h)) = [].
Proof.
  intros Hs Ht Hc.
  assert (Hr : boot_result env o h = Throw e).
  { rewrite boot_result_run, Hs. unfold backend_outcome.
    now rewrite Ht, Hc. }
  split; [exact Hr|].
  assert (Hf : jobQueue (fields (boot env o h)) = None
               /\ testingProcessor (fields (boot env o h)) = None
               /\ eventBus (boot env o h) = map subscription_of (handlers o)).
  { unfold boot. unfold serve_outcome in Hs.
    destruct (onVendureBootstrap env (fresh_world o h)) as [r w1] eqn:E.
    apply bootstrap_run in E. simpl in *.
    destruct E as (_ & _ & _ & E). rewrite Hs, Ht, Hc in E. simpl in E.
    destruct E as (Hb & _ & Hp & Hq & _). auto. }
  destruct Hf as (Hq & Hp & Hb).
  split; [exact Hq|]. split; [exact Hp|]. split; [exact Hb|].
  intros invs. now apply run_events_no_delivery.
Qed.

Lemma queue_creation_failure_drops_payloads_witness :
  boot_result no_queue_env smtp_options sample_heap = Throw boom
  /\ jobQueue (fields (boot no_queue_env smtp_options sample_heap)) = None
  /\ testingProcessor (fields (boot no_queue_env smtp_options sample_heap)) = None
  /\ eventBus (boot no_queue_env smtp_options sample_heap)
     = map subscription_of (handlers smtp_options)
  /\ forall invs,
       List.filter is_delivery
         (emitted (run_events no_queue_env invs) (boot no_queue_env smtp_options sample_heap))
       = [].
Proof.
  apply (queue_creation_failure_drops_payloads no_queue_env smtp_options sample_heap boom);
    reflexivity.
Defined.

(** When [init] of the testing processor throws, bootstrap rejects with that
    error, but the processor is already assigned and the handlers are
    subscribed: a later payload is still handed to [process]. *)
Theorem processor_init_failure_keeps_processor env o h e :
  serve_outcome env o = Ok tt ->
  testing_transport o = true ->
  processor_init env = Throw e ->
  boot_result env o h = Throw e
  /\ testingProcessor (fields (boot env o h)) = Some tt
  /\ jobQueue (fields (boot env o h)) = None
  /\ eventBus (boot env o h) = map subscription_of (handlers o)
  /\ forall hd ev od p,
       loader_outcome env hd (boot env o h) ev = Ok od ->
       handle_outcome hd (boot env o h) ev od = Ok (Some p) ->
       List.filter is_delivery (emitted (handleEvent env hd ev) (boot env o h))
       = [ProcessorProcess p].
Proof.
  intros Hs Ht Hi.
  assert (Hr : boot_result env o h = Throw e).
  { rewrite boot_result_run, Hs. unfold backend_outcome.
    now rewrite Ht, Hi. }
  split; [exact Hr|].
  assert (Hf : testingProcessor (fields (boot env o h)) = Some tt
               /\ jobQueue (fields (boot env o h)) = None
               /\ eventBus (boot env o h) = map subscription_of (handlers o)).
  { unfold boot. unfold serve_outcome in Hs.
    destruct (onVendureBootstrap env (fresh_world o h)) as [r w1] eqn:E.
    apply bootstrap_run in E. simpl in *.
    destruct E as (_ & _ & _ & E). rewrite Hs, Ht in E.
    destruct E as (Hb & _ & Hq & Hp & _). auto. }
  destruct Hf as (Hp & Hq & Hb).
  split; [exact Hp|]. split; [exact Hq|]. split; [exact Hb|].
  intros hd ev od p Hl Hh.
  destruct (handleEvent_run env hd ev (boot env o h)) as (_ & _ & _ & _ & H).
  rewrite Hl in H. destruct H as [_ H]. rewrite (emitted_app _ _ _ H), Hh.
  unfold delivery_actions. rewrite Hq, Hp.
  destruct hd, (delivery_outcome env (fields (boot env o h)) p); case_thrown; reflexivity.
Qed.

Lemma processor_init_failure_keeps_processor_witness :
  boot_result no_queue_env testing_options sample_heap = Throw boom
  /\ testingProcessor (fields (boot no_queue_env testing_options sample_heap)) = Some tt
  /\ List.filter is_delivery
       (emitted (handleEvent no_queue_env confirmation_handler 0)
                (boot no_queue_env testing_options sample_heap))
     = [ProcessorProcess confirm_details].
Proof.
  pose proof (processor_init_failure_keeps_processor no_queue_env testing_options
                sample_heap boom eq_refl eq_refl eq_refl) as (H1 & H2 & _ & _ & H5).
  split; [exact H1|]. split; [exact H2|].
  apply (H5 confirmation_handler 0 None confirm_details); reflexivity.
Defined.

(** When [serve] of the dev mailbox throws, bootstrap rejects with that error
    before any handler is subscribed and before a backend is created; the
    mailbox is already assigned, so [onVendureClose] still destroys it. *)
Theorem serve_failure_aborts_bootstrap env o h e :
  mailbox_configured o = true ->
  devMailbox_serve env o = Throw e ->
  boot_result env o h = Throw e
  /\ trace (boot env o h) = [NewDevMailbox; DevMailboxServe o]
  /\ eventBus (boot env o h) = []
  /\ jobQueue (fields (boot env o h)) = None
  /\ testingProcessor (fields (boot env o h)) = None
  /\ emitted onVendureClose (boot env o h) = [DevMailboxDestroy].
Proof.
  intros Hm Hs.
  assert (Hr : boot_result env o h = Throw e).
  { rewrite boot_result_run. unfold serve_outcome. now rewrite Hm, Hs. }
  split; [exact Hr|].
  destruct (onVendureClose_run (boot env o h)) as [_ Hc]. rewrite Hc. clear Hc.
  unfold boot.
  destruct (onVendureBootstrap env (fresh_world o h)) as [r w1] eqn:E.
  apply bootstrap_run in E. simpl in *.
  destruct E as (_ & _ & Hd & E). rewrite Hm in Hd. rewrite Hm, Hs in E.
  destruct E as (_ & Hb & Hq & Hp & Ht). rewrite Hd. auto.
Qed.

Lemma serve_failure_aborts_bootstrap_witness :
  boot_result no_queue_env dev_options sample_heap = Throw boom
  /\ trace (boot no_queue_env dev_options sample_heap)
     = [NewDevMailbox; DevMailboxServe dev_options]
  /\ eventBus (boot no_queue_env dev_options sample_heap) = []
  /\ jobQueue (fields (boot no_queue_env dev_options sample_heap)) = None
  /\ testingProcessor (fields (boot no_queue_env dev_options sample_heap)) = None
  /\ emitted onVendureClose (boot no_queue_env dev_options sample_heap) = [DevMailboxDestroy].
Proof.
  apply (serve_failure_aborts_bootstrap no_queue_env dev_options sample_heap boom);
    reflexivity.
Defined.

(** ** The order of bootstrap *)

Lemma subscribe_actions_phase o :
  Forall (fun n => n = 3) (map boot_phase (subscribe_actions o)).
Proof.
  unfold subscribe_actions. induction (handlers o) as [|hd hs IH]; simpl;
    constructor; auto.
Qed.

Lemma constant_list_sorted (n : nat) (l : list nat) :
  Forall (fun x => x = n) l -> StronglySorted le l.
Proof.
  induction 1 as [|x l -> Hl IH]; constructor; [exact IH|].
  rewrite Forall_forall in Hl. apply Forall_forall. intros y Hy.
  rewrite (Hl y Hy). lia.
Qed.

(** Bootstrap sets up the dev mailbox first, then subscribes the handlers,
    and creates the delivery backend last, in all cases: every subscription
    is in place before either backend exists. *)
Theorem bootstrap_steps_in_order env o h :
  StronglySorted le (map boot_phase (trace (boot env o h))).
Proof.
  unfold boot.
  destruct (onVendureBootstrap env (fresh_world o h)) as [r w1] eqn:E.
  apply bootstrap_run in E. simpl in *.
  destruct E as (_ & _ & _ & E). unfold mailbox_actions in E.
  pose proof (subscribe_actions_phase o) as Hsub.
  assert (Hmid : forall pre post,
             StronglySorted le pre -> StronglySorted le post ->
             Forall (fun n => n <= 3) pre -> Forall (fun n => 3 <= n) post ->
             StronglySorted le (pre ++ map boot_phase (subscribe_actions o) ++ post)).
  { intros pre post Hpre Hpost Hle Hge.
    apply StronglySorted_app_2; [|exact Hpre|].
    - intros x1 x2 H1 H2. rewrite Forall_forall in Hle. specialize (Hle _ H1).
      apply elem_of_app in H2. destruct H2 as [H2|H2].
      + rewrite Forall_forall in Hsub. rewrite (Hsub _ H2). exact Hle.
      + rewrite Forall_forall in Hge. specialize (Hge _ H2). lia.
    - apply StronglySorted_app_2; [|now apply constant_list_sorted with 3|exact Hpost].
      intros x1 x2 H1 H2. rewrite Forall_forall in Hsub. rewrite (Hsub _ H1).
      rewrite Forall_forall in Hge. exact (Hge _ H2). }
  destruct (mailbox_configured o).
  - destruct (devMailbox_serve env o) as [u|e].
    + destruct E as [_ E]. destruct (testing_transport o);
        destruct E as (_ & _ & _ & ->); simpl; rewrite !map_app;
        apply (Hmid [0; 1; 2]); repeat (constructor; try lia).
    + destruct E as (_ & _ & _ & _ & ->). simpl. repeat (constructor; try lia).
  - destruct E as [_ E]. destruct (testing_transport o);
      destruct E as (_ & _ & _ & ->); simpl; rewrite !map_app;
      apply (Hmid []); repeat (constructor; try lia).
Qed.

(** ** Dispatch after bootstrap *)

Lemma filter_subscriptions (c : string) (hs : list Handler) :
  filter (fun s => sub_event s = c) (map subscription_of hs)
  = map subscription_of (filter (fun hd => event (base hd) = c) hs).
Proof.
  induction hs as [|hd hs IH]; [reflexivity|].
  simpl. rewrite !filter_cons. simpl.
  destruct (decide (event (base hd) = c)); simpl; now rewrite IH.
Qed.

Lemma boot_subscriptions env o h :
  boot_result env o h = Ok tt ->
  eventBus (boot env o h) = map subscription_of (handlers o)
  /\ heap (boot env o h) = h.
Proof.
  unfold boot_result, boot.
  destruct (onVendureBootstrap env (fresh_world o h)) as [r w1] eqn:E.
  apply bootstrap_run in E. simpl in *. intros ->.
  destruct E as (_ & Hh & _ & E). split; [|exact Hh].
  destruct (if mailbox_configured o then devMailbox_serve env o else Ok tt) as [u|e].
  - now destruct E as [-> _].
  - destruct E as [E _]. discriminate.
Qed.

Lemma filter_none (c : string) (hs : list Handler) :
  Forall (fun hd => event (base hd) <> c) hs ->
  filter (fun hd => event (base hd) = c) hs = [].
Proof.
  induction 1 as [|hd hs Hne _ IH]; [reflexivity|].
  rewrite filter_cons. destruct (decide (event (base hd) = c)); [contradiction|exact IH].
Qed.

(** After a bootstrap that completes, an event is delivered to the handlers
    registered for its class, in registration order, and to no others:
    publishing it enters [handleEvent] once for each of them, in that order.
    An event of a class no handler listens to causes no call at all. *)
Theorem dispatch_follows_registration env o h ev :
  boot_result env o h = Ok tt ->
  subscribers_of (boot env o h) ev
    = map subscription_of
        (filter (fun hd => event (base hd) = ev_class (h ev)) (handlers o))
  /\ List.filter is_LoggerDebug (emitted (publish env ev) (boot env o h))
     = map debug_entry
         (filter (fun hd => event (base hd) = ev_class (h ev)) (handlers o))
  /\ (Forall (fun hd => event (base hd) <> ev_class (h ev)) (handlers o) ->
      emitted (publish env ev) (boot env o h) = []).
Proof.
  intros Hok.
  destruct (boot_subscriptions env o h Hok) as [Hb Hh].
  assert (Hsubs : subscribers_of (boot env o h) ev
                  = map subscription_of
                      (filter (fun hd => event (base hd) = ev_class (h ev)) (handlers o))).
  { unfold subscribers_of. rewrite Hb, Hh. apply filter_subscriptions. }
  split; [exact Hsubs|]. split.
  - destruct (publish_post env ev (boot env o h)) as (_ & _ & t & Ht & Hf).
    rewrite (emitted_app _ _ _ Ht), Hf. unfold expected_entries. rewrite Hsubs.
    rewrite map_map. reflexivity.
  - intros Hnone. unfold emitted, publish. rewrite Hsubs, (filter_none _ _ Hnone).
    simpl. apply drop_all.
Qed.

Lemma dispatch_follows_registration_witness :
  List.filter is_LoggerDebug
    (emitted (publish quiet_env 0) (boot quiet_env smtp_options sample_heap))
  = [debug_entry confirmation_handler; debug_entry declining_handler].
Proof.
  apply (dispatch_follows_registration quiet_env smtp_options sample_heap 0).
  reflexivity.
Defined.

(** ** The mailbox proxy route *)

Lemma configure_world c w : snd (configure c w) = w.
Proof.
  unfold configure. run_js.
  destruct (isDevModeOptions (options w) && bool_decide (mailboxPort (options w) <> None));
    [destruct (mailboxPort (options w))|]; reflexivity.
Qed.

(** [configure] adds the proxy route exactly when bootstrap, under the same
    options, creates the dev mailbox: then the configuration gets one more
    middleware entry, the proxy to the configured [mailboxPort] on route
    mailbox, and [serve] is called with those options; otherwise the
    configuration is returned as it came.  [configure] changes nothing in
    the plugin. *)
Theorem proxy_route_iff_mailbox env c w h :
  snd (configure c w) = w
  /\ (devMailbox (fields (boot env (options w) h)) = Some tt ->
        exists port,
          mailboxPort (options w) = Some port
          /\ fst (configure c w) = Ok (push_middleware c (mailbox_proxy port))
          /\ In (DevMailboxServe (options w)) (trace (boot env (options w) h)))
  /\ (devMailbox (fields (boot env (options w) h)) = None ->
        fst (configure c w) = Ok c).
Proof.
  split; [apply configure_world|].
  destruct (boot_mailbox env (options w) h) as (Hd & Ht & _).
  rewrite Hd.
  assert (Hin : mailbox_configured (options w) = true ->
                In (DevMailboxServe (options w)) (trace (boot env (options w) h))).
  { intros Hm. apply (in_mailbox_trace (DevMailboxServe (options w))); [reflexivity|].
    rewrite Ht, Hm.
    destruct (is_ok (devMailbox_serve env (options w))); simpl; auto. }
  clear Hd Ht.
  unfold configure. run_js.
  change (isDevModeOptions (options w) && bool_decide (mailboxPort (options w) <> None))
    with (mailbox_configured (options w)).
  destruct (mailbox_configured (options w)) eqn:Hm.
  - specialize (Hin eq_refl).
    apply mailbox_configured_iff in Hm. destruct Hm as [_ Hp].
    destruct (mailboxPort (options w)) as [port|]; [|congruence].
    split; [|discriminate]. intros _. exists port.
    split; [reflexivity|]. split; [reflexivity|exact Hin].
  - split; [discriminate|reflexivity].
Qed.

Lemma proxy_route_iff_mailbox_witness :
  exists port,
    mailboxPort dev_options = Some port
    /\ fst (configure sample_config (fresh_world dev_options sample_heap))
       = Ok (push_middleware sample_config (mailbox_proxy port))
    /\ In (DevMailboxServe dev_options) (trace (boot quiet_env dev_options sample_heap)).
Proof.
  apply (proxy_route_iff_mailbox quiet_env sample_config
           (fresh_world dev_options sample_heap) sample_heap).
  reflexivity.
Defined.

(** [configure] is not idempotent: with a configured mailbox, [n] calls in a
    row append [n] copies of the proxy entry after the middleware that was
    there, which keeps its order, and leave every other setting alone;
    without a configured mailbox any number of calls returns the
    configuration unchanged. *)
Theorem configure_appends_one_proxy_per_call n c w :
  (forall port,
      isDevModeOptions (options w) = true ->
      mailboxPort (options w) = Some port ->
      exists c',
        configure_times n c w = (Ok c', w)
        /\ middleware (apiOptions c')
           = middleware (apiOptions c) ++ replicate n (mailbox_proxy port)
        /\ ao_others (apiOptions c') = ao_others (apiOptions c)
        /\ cfg_others c' = cfg_others c)
  /\ (mailbox_configured (options w) = false ->
      configure_times n c w = (Ok c, w)).
Proof.
  split.
  - intros port Hdev Hport. revert c.
    induction n as [|n IH]; intros c; simpl.
    + exists c. unfold ret. rewrite app_nil_r. auto.
    + unfold bind at 1. unfold configure. run_js. rewrite Hdev, Hport. simpl.
      destruct (IH (push_middleware c (mailbox_proxy port))) as (c' & Hrun & Hm & Ha & Hc).
      exists c'. split; [exact Hrun|]. split; [|auto].
      rewrite Hm. simpl. now rewrite <- app_assoc.
  - intros Hm. induction n as [|n IH]; simpl; [reflexivity|].
    unfold bind at 1. unfold configure. run_js.
    change (isDevModeOptions (options w) && bool_decide (mailboxPort (options w) <> None))
      with (mailbox_configured (options w)).
    rewrite Hm. exact IH.
Qed.

Lemma configure_appends_one_proxy_per_call_witness :
  exists c',
    configure_times 2 sample_config (fresh_world dev_options sample_heap)
      = (Ok c', fresh_world dev_options sample_heap)
    /\ middleware (apiOptions c')
       = middleware (apiOptions sample_config) ++ replicate 2 (mailbox_proxy 5003)
    /\ ao_others (apiOptions c') = ao_others (apiOptions sample_config)
    /\ cfg_others c' = cfg_others sample_config.
Proof.
  apply (configure_appends_one_proxy_per_call 2 sample_config
           (fresh_world dev_options sample_heap)); reflexivity.
Defined.

(** ** The queue's process callback *)

(** For every job the process callback calls [workerService.send] exactly
    once, first, and ends the job at most once, never both completing and
    failing it: while the send neither completes nor errors, the job is left
    open. *)
Theorem process_callback_sends_once env job w :
  head (emitted (apply_process env ProcSendToWorker job) w)
    = Some (WorkerServiceSend (mkEmailWorkerMessage (job_data job)))
  /\ List.filter is_WorkerServiceSend (emitted (apply_process env ProcSendToWorker job) w)
     = [WorkerServiceSend (mkEmailWorkerMessage (job_data job))]
  /\ length (List.filter is_job_end (emitted (apply_process env ProcSendToWorker job) w)) <= 1
  /\ (List.filter is_job_end (emitted (apply_process env ProcSendToWorker job) w) = []
      <-> workerService_send env (mkEmailWorkerMessage (job_data job)) = SendPending).
Proof.
  destruct (apply_process_run env job w) as [_ ->].
  destruct (workerService_send env (mkEmailWorkerMessage (job_data job))); simpl;
    repeat split; auto; discriminate.
Qed.

(** * Properties of the facet value selector *)

Section FacetValueSelectorProperties.

Context {FacetValue : Type}.
Variable fv_name : FacetValue -> string.
Variable fv_id : FacetValue -> string.

Lemma reduce_concat (items : list (@Facet FacetValue)) acc :
  fold_left (fun flattened facet => flattened ++ map (selector_item fv_name fv_id facet) (facet_values facet)) items acc
  = acc ++ flat_map (fun facet => map (selector_item fv_name fv_id facet) (facet_values facet)) items.
Proof.
  revert acc. induction items as [|facet items IH]; intros acc; simpl.
  - now rewrite app_nil_r.
  - rewrite IH. now rewrite <- app_assoc.
Qed.

Lemma flatten_facets_flat_map (items : list (@Facet FacetValue)) :
  flatten_facets fv_name fv_id items = flat_map (fun facet => map (selector_item fv_name fv_id facet) (facet_values facet)) items.
Proof. unfold flatten_facets. now rewrite reduce_concat. Qed.

Lemma flatten_facets_values (items : list (@Facet FacetValue)) :
  map item_value (flatten_facets fv_name fv_id items) = flat_map facet_values items.
Proof.
  rewrite flatten_facets_flat_map.
  induction items as [|facet items IH]; simpl; [reflexivity|].
  rewrite map_app, IH, map_map. simpl. f_equal. apply map_id.
Qed.

(** The list the selector offers holds, facet after facet in the order of
    the result, one item per value of the facet in the order of its values;
    its length is the total number of values, so a facet without values
    contributes nothing. *)
Theorem flatten_facets_in_order (items : list (@Facet FacetValue)) :
  map item_value (flatten_facets fv_name fv_id items) = flat_map facet_values items
  /\ map item_facetName (flatten_facets fv_name fv_id items)
     = flat_map (fun facet => replicate (length (facet_values facet)) (facet_name facet)) items
  /\ length (flatten_facets fv_name fv_id items)
     = sum_list (map (fun facet => length (facet_values facet)) items).
Proof.
  split; [apply flatten_facets_values|].
  rewrite flatten_facets_flat_map.
  induction items as [|facet items IH]; simpl; [auto|].
  destruct IH as (IH2 & IH3).
  rewrite !map_app, length_app, IH2, IH3, !map_map, length_map. simpl.
  split; [|reflexivity].
  f_equal. induction (facet_values facet) as [|v vs IHv]; simpl; [reflexivity|].
  now rewrite IHv.
Qed.

(** Flattening a result that is two lists of facets one after the other
    gives the items of the first followed by the items of the second. *)
Theorem flatten_facets_app (xs ys : list (@Facet FacetValue)) :
  flatten_facets fv_name fv_id (xs ++ ys)
  = flatten_facets fv_name fv_id xs ++ flatten_facets fv_name fv_id ys.
Proof.
  rewrite !flatten_facets_flat_map. apply flat_map_app.
Qed.

(** An item is offered exactly when it is the item of some value of some
    facet of the result: nothing is dropped and nothing is invented. *)
Theorem flatten_facets_complete (items : list (@Facet FacetValue)) it :
  In it (flatten_facets fv_name fv_id items)
  <-> exists facet value,
        In facet items /\ In value (facet_values facet)
        /\ it = selector_item fv_name fv_id facet value.
Proof.
  rewrite flatten_facets_flat_map, in_flat_map. split.
  - intros (facet & Hf & Hin). apply in_map_iff in Hin.
    destruct Hin as (value & <- & Hv). eauto.
  - intros (facet & value & Hf & Hv & ->). exists facet. split; [exact Hf|].
    apply in_map_iff. eauto.
Qed.

(** Selecting items the selector offered emits, in one emission that leaves
    the earlier ones as they were, the facet values behind the selected
    items in the order of the selection; each emitted value has the id and
    the name shown on its item.  Selecting everything that [ngOnInit]
    offered emits every value of every facet, in order. *)
Theorem onChange_emits_the_selected_values
    (items : list (@Facet FacetValue)) (selected : list FacetValueSeletorItem)
    (log : list (list FacetValue)) :
  incl selected (flatten_facets fv_name fv_id items) ->
  onChange selected log = log ++ [map item_value selected]
  /\ map fv_id (map item_value selected) = map item_id selected
  /\ map fv_name (map item_value selected) = map item_name selected
  /\ incl (map item_value selected) (flat_map facet_values items)
  /\ (forall getFacets,
        getFacets 9999999%Z 0%Z = items ->
        last (onChange (ngOnInit fv_name fv_id getFacets) log)
        = Some (flat_map facet_values items)).
Proof.
  intros Hincl.
  assert (Hitem : forall it, In it selected ->
                    exists facet value,
                      In facet items /\ In value (facet_values facet)
                      /\ it = selector_item fv_name fv_id facet value).
  { intros it Hin. apply Hincl in Hin.
    rewrite flatten_facets_flat_map, in_flat_map in Hin.
    destruct Hin as (facet & Hf & Hin). apply in_map_iff in Hin.
    destruct Hin as (value & <- & Hv). eauto. }
  split; [reflexivity|]. split; [|split; [|split]].
  - rewrite map_map. apply map_ext_in. intros it Hin.
    destruct (Hitem it Hin) as (facet & value & _ & _ & ->). reflexivity.
  - rewrite map_map. apply map_ext_in. intros it Hin.
    destruct (Hitem it Hin) as (facet & value & _ & _ & ->). reflexivity.
  - intros v Hv. apply in_map_iff in Hv. destruct Hv as (it & <- & Hin).
    destruct (Hitem it Hin) as (facet & value & Hf & Hval & ->). simpl.
    apply in_flat_map. eauto.
  - intros getFacets <-. unfold onChange, ngOnInit. rewrite last_snoc. f_equal.
    apply flatten_facets_values.
Qed.

End FacetValueSelectorProperties.

Lemma onChange_emits_the_selected_values_witness :
  map (fun v : string => v) (map item_value (flatten_facets (fun v => v) (fun v => v) sample_facets))
  = map item_id (flatten_facets (fun v : string => v) (fun v => v) sample_facets).
Proof.
  apply (onChange_emits_the_selected_values (fun v : string => v) (fun v => v)
           sample_facets
           (flatten_facets (fun v => v) (fun v => v) sample_facets) []).
  intros it Hin. exact Hin.
Defined.

(** * Failures with an error value, and publication *)

(** A failure raised while loading the async data, in the handler body or in
    delivery, with a value other than [null] or [undefined], is caught in
    [handleEvent]: the invocation ends normally, and the failure is logged
    with the [message] and [stack] read from the value, as the one error
    entry and the last entry of the invocation. *)
Theorem error_value_is_caught_and_logged env h ev w (e : JsError) :
  raises env h ev w e ->
  fst (handleEvent env h ev w) = Ok tt
  /\ last (emitted (handleEvent env h ev) w) = Some (error_entry e)
  /\ List.filter is_LoggerError (emitted (handleEvent env h ev) w) = [error_entry e].
Proof.
  intros Hr. destruct (raises_logged env h ev w e Hr) as (Hok & t & -> & Hf).
  split; [exact Hok|]. split; [apply last_snoc|].
  rewrite List.filter_app, Hf. reflexivity.
Qed.

Lemma error_value_is_caught_and_logged_witness :
  fst (handleEvent quiet_env throwing_handler 0 inline_world) = Ok tt
  /\ last (emitted (handleEvent quiet_env throwing_handler 0) inline_world)
     = Some (error_entry boom)
  /\ List.filter is_LoggerError (emitted (handleEvent quiet_env throwing_handler 0) inline_world)
     = [error_entry boom].
Proof.
  apply (error_value_is_caught_and_logged quiet_env throwing_handler 0 inline_world boom).
  apply raises_handle with (od := None); reflexivity.
Defined.

(** Publishing any sequence of events enters [handleEvent] once for every
    subscription of the class of every event, in publication and
    subscription order, whichever of the invocations failed or rejected: the
    promise of an invocation is not awaited by the bus.  The fields, the
    options and the subscriptions are as before. *)
Theorem publication_enters_every_subscription env evs w :
  fst (for_each (publish env) evs w) = Ok tt
  /\ stable w (snd (for_each (publish env) evs w))
  /\ List.filter is_LoggerDebug (emitted (for_each (publish env) evs) w)
     = flat_map (fun ev => expected_entries ev w) evs.
Proof.
  destruct (publish_all_post env evs w) as (Hok & Hst & t & Ht & Hf).
  split; [exact Hok|]. split; [exact Hst|].
  now rewrite (emitted_app _ _ _ Ht).
Qed.
